(** * GitHubImageHost: a shallow embedding of [src/GitHubImageHost.py]

    The client keeps files in one directory of a GitHub repository and
    hands out CDN links to them.  Python [str] values are modelled as
    [string] (sequences of UTF-8 bytes: every character the code inspects,
    '/' and '.', is ASCII, so byte-wise and character-wise stripping and
    searching agree).  The HTTP session, the clock, the local file system
    and the process environment form the host, an interface the code is
    generic in; the semaphore of the instance and the log of what the
    client did are explicit state. *)

From Stdlib Require Import ZArith NArith Ascii String List Lia.
From Stdlib.Strings Require Import Byte.
From stdpp Require Import base option list relations strings pretty gmap.

Local Open Scope Z_scope.

(** ** Python string primitives used by the source *)

Module PyStr.

(** [c in chars], for the argument of [str.strip] and friends. *)
Definition mem (c : ascii) (chars : string) : bool :=
  existsb (Ascii.eqb c) (list_ascii_of_string chars).

(** [s.lstrip(chars)] *)
Fixpoint lstrip (chars s : string) : string :=
  match s with
  | EmptyString => EmptyString
  | String c rest => if mem c chars then lstrip chars rest else s
  end.

(** [s.rstrip(chars)] *)
Fixpoint rstrip (chars s : string) : string :=
  match s with
  | EmptyString => EmptyString
  | String c rest =>
      match rstrip chars rest with
      | EmptyString => if mem c chars then EmptyString else String c EmptyString
      | kept => String c kept
      end
  end.

(** [s.strip(chars)] *)
Definition strip (chars s : string) : string := rstrip chars (lstrip chars s).

(** Truthiness of a [str]: [if s]. *)
Definition truthy (s : string) : bool :=
  match s with EmptyString => false | _ => true end.

(** Truthiness of an [Optional[str]]. *)
Definition truthy_opt (o : option string) : bool :=
  match o with Some s => truthy s | None => false end.

(** [s.startswith(c)] and [s.endswith(c)] for a one-character [c]. *)
Definition starts_with (c : ascii) (s : string) : bool :=
  match s with String d _ => Ascii.eqb d c | EmptyString => false end.

Fixpoint ends_with (c : ascii) (s : string) : bool :=
  match s with
  | EmptyString => false
  | String d EmptyString => Ascii.eqb d c
  | String _ rest => ends_with c rest
  end.

(** [s.rfind(c)] as an option: [None] stands for Python's [-1]. *)
Fixpoint rfind (c : ascii) (s : string) : option nat :=
  match s with
  | EmptyString => None
  | String d rest =>
      match rfind c rest with
      | Some i => Some (S i)
      | None => if Ascii.eqb d c then Some O else None
      end
  end.

(** [s[:i]] and [s[i:]] *)
Fixpoint take (i : nat) (s : string) : string :=
  match i, s with
  | S j, String c rest => String c (take j rest)
  | _, _ => EmptyString
  end.

Fixpoint drop (i : nat) (s : string) : string :=
  match i, s with
  | S j, String _ rest => drop j rest
  | _, _ => s
  end.

(** [s.split("/")] *)
Fixpoint split (sep : ascii) (s : string) : list string :=
  match s with
  | EmptyString => [EmptyString]
  | String c rest =>
      if Ascii.eqb c sep then EmptyString :: split sep rest
      else match split sep rest with
           | piece :: pieces => String c piece :: pieces
           | [] => [String c EmptyString]
           end
  end.

End PyStr.

(** ** [pathlib.Path]: the three properties the source reads

    POSIX flavour, as documented for [PurePosixPath]: the parts of a path
    are its '/'-separated pieces without the empty ones and without ".";
    the suffix starts at the last '.' of the name when that dot is neither
    its first nor its last character (pathlib up to Python 3.13). *)

Module PyPath.

Definition parts (file_path : string) : list string :=
  List.filter (fun piece => negb (String.eqb piece "" || String.eqb piece "."))
              (PyStr.split "/" file_path).

(** [Path(file_path).name] *)
Definition name (file_path : string) : string :=
  List.last (parts file_path) "".

(** The position of the dot that starts the suffix:
    [i = name.rfind('.')] with [0 < i < len(name) - 1]. *)
Definition suffix_dot (nm : string) : option nat :=
  match PyStr.rfind "." nm with
  | Some i => if ((0 <? i)%nat && (i <? String.length nm - 1)%nat)%bool
              then Some i else None
  | None => None
  end.

(** [Path(file_path).suffix] *)
Definition suffix (file_path : string) : string :=
  let nm := name file_path in
  match suffix_dot nm with
  | Some i => PyStr.drop i nm
  | None => ""
  end.

(** [Path(file_path).stem] *)
Definition stem (file_path : string) : string :=
  let nm := name file_path in
  match suffix_dot nm with
  | Some i => PyStr.take i nm
  | None => nm
  end.

End PyPath.

(** ** [base64.b64encode(data).decode("ascii")] *)

Module Base64.

Definition alphabet : string :=
  "ABCDEFGHIJKLMNOPQRSTUVWXYZabcdefghijklmnopqrstuvwxyz0123456789+/".

Definition digit (n : N) : ascii :=
  match String.get (N.to_nat n) alphabet with
  | Some c => c
  | None => "="%char
  end.

Definition pad : ascii := "="%char.

Fixpoint encode_N (data : list N) : string :=
  match data with
  | [] => ""
  | [a] =>
      String (digit (a / 4)) (String (digit ((a mod 4) * 16))
        (String pad (String pad "")))
  | [a; b] =>
      String (digit (a / 4)) (String (digit ((a mod 4) * 16 + b / 16))
        (String (digit ((b mod 16) * 4)) (String pad "")))
  | a :: b :: c :: rest =>
      String (digit (a / 4)) (String (digit ((a mod 4) * 16 + b / 16))
        (String (digit ((b mod 16) * 4 + c / 64))
          (String (digit (c mod 64)) (encode_N rest))))
  end%N.

Definition b64encode (data : list byte) : string :=
  encode_N (List.map Byte.to_N data).

End Base64.

(** ** Exceptions and outcomes *)

Inductive exn : Type :=
  | RuntimeError (msg : string)
  | FileNotFoundError (arg : string)
  | KeyError (key : string)
  | TypeError
  | JSONDecodeError
  | ValueError
  | RequestException (detail : string).

(** ** The store configuration ([self.owner] ... [self._headers]) *)

Record GitHubImageHost : Type := {
  owner : string;
  repo : string;
  branch : string;
  subdir : string;
  token : string;
  custom_cdn : option string;
  headers : list (string * string)
}.

(** [subdir.strip("/") + "/" if subdir else ""] (line 65) *)
Definition normalize_subdir (subdir : string) : string :=
  if PyStr.truthy subdir then PyStr.strip "/" subdir +:+ "/" else "".

(** [token or os.getenv("GITHUB_PAT")] (line 66) *)
Definition resolve_token (token env_pat : option string) : option string :=
  if PyStr.truthy_opt token then token else env_pat.

Definition missing_pat : exn :=
  RuntimeError "缺少 GitHub PAT，请设置 token 或环境变量 GITHUB_PAT".

(** The headers built at lines 75-79. *)
Definition make_headers (tok : string) : list (string * string) :=
  [ ("Authorization", "Bearer " +:+ tok);
    ("Accept", "application/vnd.github+json");
    ("X-GitHub-Api-Version", "2022-11-28") ].

(** [__init__] without its effects: [env_pat] is what
    [os.getenv("GITHUB_PAT")] returns; the result carries the new store
    and the initial value of its semaphore.  [threading.Semaphore] raises
    [ValueError] on a negative initial value. *)
Definition __init__ (owner repo branch subdir : string) (token custom_cdn : option string)
    (max_concurrency : Z) (env_pat : option string) : exn + (GitHubImageHost * Z) :=
  let sub := normalize_subdir subdir in
  match resolve_token token env_pat with
  | Some tok =>
      if PyStr.truthy tok then
        if max_concurrency <? 0 then inl ValueError
        else inr ({| owner := owner; repo := repo; branch := branch;
                     subdir := sub; token := tok; custom_cdn := custom_cdn;
                     headers := make_headers tok |}, max_concurrency)
      else inl missing_pat
  | None => inl missing_pat
  end.

(** [filename or p.name] (line 225): the override counts only when it is
    a non-empty string. *)
Definition target_name (file_path : string) (filename : option string) : string :=
  if PyStr.truthy_opt filename then
    match filename with
    | Some f => f
    | None => PyPath.name file_path
    end
  else PyPath.name file_path.

(** ** URL construction (lines 84-97) *)

Definition _api_url (self : GitHubImageHost) (path : string) : string :=
  "https://api.github.com/repos/" +:+ owner self +:+ "/" +:+ repo self
    +:+ "/contents/" +:+ path.

Definition _cdn_url (self : GitHubImageHost) (filename : string) : string :=
  let rel := PyStr.lstrip "/" (subdir self +:+ filename) in
  if PyStr.truthy_opt (custom_cdn self) then
    match custom_cdn self with
    | Some base => PyStr.rstrip "/" base +:+ "/" +:+ rel
    | None => ""
    end
  else
    "https://cdn.jsdelivr.net/gh/" +:+ owner self +:+ "/" +:+ repo self
      +:+ "@" +:+ branch self +:+ "/" +:+ rel.

(** [get_url] (lines 264-268) *)
Definition get_url (self : GitHubImageHost) (filename : string) : string :=
  _cdn_url self filename.

(** ** Requests, responses and the host the client runs on *)

Inductive method : Type := GET | PUT | DELETE.

(** One call of [session.get], [session.put] or [session.delete]:
    [rq_data] is the dict handed to [json.dumps] (in insertion order),
    [rq_timeout] the [timeout=] keyword when the call passes one. *)
Record request : Type := {
  rq_method : method;
  rq_url : string;
  rq_headers : list (string * string);
  rq_data : option (list (string * string));
  rq_timeout : option Z
}.

(** What [r.json()] yields for the contents API: an object for a file, an
    array of objects for a directory.  Only the string-valued fields are
    kept, the code reads no other. *)
Inductive json : Type :=
  | JObject (fields : list (string * string))
  | JArray (items : list (list (string * string))).

(** A [requests.Response]; [json_body = None] when the body does not
    decode, so that [r.json()] raises. *)
Record response : Type := {
  status_code : Z;
  text : string;
  json_body : option json
}.

(** [Response.ok]: [raise_for_status] raises for 400 <= status < 600. *)
Definition ok (r : response) : bool :=
  negb ((400 <=? status_code r) && (status_code r <? 600)).

(** [time.gmtime()] *)
Record struct_time : Type := {
  tm_year : N; tm_mon : N; tm_mday : N;
  tm_hour : N; tm_min : N; tm_sec : N
}.

(** What the client needs from its surroundings: the HTTP session (which
    answers or raises), the UTC clock and the local file system. *)
Class Host (Σ : Type) : Type := {
  send : Σ → request → (exn + response) * Σ;
  gmtime : Σ → struct_time;
  is_file : Σ → string → bool;
  read_bytes : Σ → string → exn + list byte
}.

Inductive event : Type :=
  | Acquire
  | Release
  | Sent (rq : request).

(** The state a call runs in: the host, the value of [self._sema] and the
    chronological log of what this thread did. *)
Record World (Σ : Type) : Type := mkWorld {
  host : Σ;
  sema : Z;
  log : list event
}.
Arguments mkWorld {Σ} _ _ _.
Arguments host {Σ} _.
Arguments sema {Σ} _.
Arguments log {Σ} _.

(** A call returns, raises, or parks forever on the semaphore. *)
Inductive outcome (A : Type) : Type :=
  | Ret (a : A)
  | Raise (e : exn)
  | Blocked.
Arguments Ret {A} _.
Arguments Raise {A} _.
Arguments Blocked {A}.

Definition Run (Σ A : Type) : Type := World Σ → outcome A * World Σ.

Definition ret {Σ A} (a : A) : Run Σ A := fun w => (Ret a, w).

Definition raise {Σ A} (e : exn) : Run Σ A := fun w => (Raise e, w).

Definition bind {Σ A B} (m : Run Σ A) (k : A → Run Σ B) : Run Σ B :=
  fun w =>
    match m w with
    | (Ret a, w') => k a w'
    | (Raise e, w') => (Raise e, w')
    | (Blocked, w') => (Blocked, w')
    end.

Notation "x <- m ;; k" := (bind m (fun x => k))
  (at level 100, m at next level, right associativity).

(** [%m], [%d], [%H], [%M], [%S]: two digits, zero padded. *)
Definition pad2 (n : N) : string :=
  if (n <? 10)%N then "0" +:+ pretty n else pretty n.

(** [time.strftime("%Y%m%d-%H%M%S", t)] *)
Definition strftime_stamp (t : struct_time) : string :=
  pretty (tm_year t) +:+ pad2 (tm_mon t) +:+ pad2 (tm_mday t) +:+ "-"
    +:+ pad2 (tm_hour t) +:+ pad2 (tm_min t) +:+ pad2 (tm_sec t).

(** A [struct_time] as [time.gmtime()] returns them in the years
    1000-9999. *)
Definition is_utc_time (t : struct_time) : bool :=
  ((1000 <=? tm_year t) && (tm_year t <? 10000)
   && (tm_mon t <? 100) && (tm_mday t <? 100)
   && (tm_hour t <? 100) && (tm_min t <? 100) && (tm_sec t <? 100))%N.

(** [d[key]] on a decoded JSON object *)
Fixpoint field (key : string) (fields : list (string * string)) : exn + string :=
  match fields with
  | [] => inl (KeyError key)
  | (k, v) :: rest => if String.eqb k key then inr v else field key rest
  end.

(** [r.json()["sha"]]: a body that does not decode raises, a list cannot
    be indexed by a string. *)
Definition json_sha (r : response) : exn + string :=
  match json_body r with
  | None => inl JSONDecodeError
  | Some (JObject fields) => field "sha" fields
  | Some (JArray _) => inl TypeError
  end.

Definition mutating (rq : request) : bool :=
  match rq_method rq with GET => false | PUT | DELETE => true end.

Section Client.

Context {Σ : Type} `{!Host Σ}.

Definition lift {A} (r : exn + A) : Run Σ A :=
  match r with inl e => raise e | inr a => ret a end.

(** One call on [self.session]: logged, then answered by the host. *)
Definition session (rq : request) : Run Σ response :=
  fun w =>
    let '(answer, σ') := send (host w) rq in
    let w' := mkWorld σ' (sema w) (log w ++ [Sent rq]) in
    match answer with
    | inl e => (Raise e, w')
    | inr r => (Ret r, w')
    end.

(** [with self._sema: body]: [acquire] parks the thread while the value
    is 0; [__exit__] releases whether the body returned or raised. *)
Definition with_sema {A} (body : Run Σ A) : Run Σ A :=
  fun w =>
    if 0 <? sema w then
      let '(res, w') := body (mkWorld (host w) (sema w - 1) (log w ++ [Acquire])) in
      match res with
      | Blocked => (Blocked, w')
      | _ => (res, mkWorld (host w') (sema w' + 1) (log w' ++ [Release]))
      end
    else (Blocked, w).

Definition now : Run Σ struct_time := fun w => (Ret (gmtime (host w)), w).

Definition path_is_file (file_path : string) : Run Σ bool :=
  fun w => (Ret (is_file (host w) file_path), w).

Definition path_read_bytes (file_path : string) : Run Σ (list byte) :=
  fun w => lift (read_bytes (host w) file_path) w.

Variable self : GitHubImageHost.

Definition get_request (path : string) : request :=
  {| rq_method := GET; rq_url := _api_url self path; rq_headers := headers self;
     rq_data := None; rq_timeout := None |}.

Definition put_request (path : string) (body : list (string * string))
    (timeout : option Z) : request :=
  {| rq_method := PUT; rq_url := _api_url self path; rq_headers := headers self;
     rq_data := Some body; rq_timeout := timeout |}.

Definition delete_request (path : string) (body : list (string * string)) : request :=
  {| rq_method := DELETE; rq_url := _api_url self path; rq_headers := headers self;
     rq_data := Some body; rq_timeout := None |}.

(** The body dict of [_ensure_dir] (lines 113-117). *)
Definition gitkeep_body : list (string * string) :=
  [ ("message", "init dir");
    ("content", Base64.b64encode []);
    ("branch", branch self) ].

(** [_ensure_dir] (lines 99-123) *)
Definition _ensure_dir : Run Σ unit :=
  if negb (PyStr.truthy (subdir self)) then ret tt
  else
    r <- session (get_request (subdir self)) ;;
    if ok r then ret tt
    else
      _ <- session (put_request (subdir self +:+ ".gitkeep") gitkeep_body None) ;;
      ret tt.

(** The body dict of [upload] (lines 148-152, and 167 after a rename). *)
Definition upload_body (filename content_b64 : string) : list (string * string) :=
  [ ("message", "upload " +:+ filename);
    ("content", content_b64);
    ("branch", branch self) ].

(** [upload] (lines 128-179) *)
Definition upload (file_path : string) : Run Σ string :=
  _ <- _ensure_dir ;;
  is_f <- path_is_file file_path ;;
  if negb is_f then raise (FileNotFoundError file_path)
  else
    let filename := PyPath.name file_path in
    bytes <- path_read_bytes file_path ;;
    let content_b64 := Base64.b64encode bytes in
    let api_path := subdir self +:+ filename in
    filename <- with_sema (
      resp <- session (put_request api_path (upload_body filename content_b64) (Some 30)) ;;
      renamed <-
        (if status_code resp =? 422 then
           t <- now ;;
           let ts := strftime_stamp t in
           let filename := PyPath.stem file_path +:+ "-" +:+ ts +:+ PyPath.suffix file_path in
           let api_path := subdir self +:+ filename in
           resp <- session (put_request api_path (upload_body filename content_b64) (Some 30)) ;;
           ret (filename, resp)
         else ret (filename, resp)) ;;
      let '(filename, resp) := renamed in
      if negb (ok resp) then raise (RuntimeError (text resp))
      else ret filename) ;;
    ret (_cdn_url self filename).

(** [delete] (lines 181-209) *)
Definition delete (filename : string) : Run Σ unit :=
  let api_path := subdir self +:+ filename in
  r <- session (get_request api_path) ;;
  if status_code r =? 404 then ret tt
  else
    sha <- lift (json_sha r) ;;
    let body := [ ("message", "delete " +:+ filename);
                  ("sha", sha);
                  ("branch", branch self) ] in
    resp <- with_sema (session (delete_request api_path body)) ;;
    if negb (ok resp) then raise (RuntimeError (text resp))
    else ret tt.

(** [update] (lines 211-252) *)
Definition update (file_path : string) (filename : option string) : Run Σ string :=
  _ <- _ensure_dir ;;
  let name := target_name file_path filename in
  let api_path := subdir self +:+ name in
  r <- session (get_request api_path) ;;
  if negb (ok r) then raise (FileNotFoundError name)
  else
    sha <- lift (json_sha r) ;;
    bytes <- path_read_bytes file_path ;;
    let content_b64 := Base64.b64encode bytes in
    let body := [ ("message", "update " +:+ name);
                  ("content", content_b64);
                  ("sha", sha);
                  ("branch", branch self) ] in
    resp <- with_sema (session (put_request api_path body None)) ;;
    if negb (ok resp) then raise (RuntimeError (text resp))
    else ret (_cdn_url self name).


(** The directory [clear_dir] works on (line 289). *)
Definition target_dir_of (dir_path : option string) : string :=
  if PyStr.truthy_opt dir_path then
    match dir_path with
    | Some d => PyStr.strip "/" d +:+ "/"
    | None => subdir self
    end
  else subdir self.

(** [keep = keep or set()] (line 290) *)
Definition keep_of (keep : option (gset string)) : gset string :=
  match keep with
  | Some k => if bool_decide (k = ∅) then ∅ else k
  | None => ∅
  end.

(** One turn of the loop of [clear_dir] (lines 298-319): [None] is
    [continue], [Some tt] a deletion that went through. *)
Definition clear_item (keep : gset string) (item : list (string * string))
    : Run Σ (option unit) :=
  ty <- lift (field "type" item) ;;
  if negb (String.eqb ty "file") then ret None
  else
    name <- lift (field "name" item) ;;
    if bool_decide (name ∈ keep) then ret None
    else
      sha <- lift (field "sha" item) ;;
      let body := [ ("message", "delete " +:+ name);
                    ("sha", sha);
                    ("branch", branch self) ] in
      resp <- with_sema (
        path <- lift (field "path" item) ;;
        session (delete_request path body)) ;;
      if negb (ok resp) then raise (RuntimeError (text resp))
      else ret (Some tt).

(** [for item in items: ...] with the running counter [deleted]. *)
Fixpoint clear_loop (keep : gset string) (items : list (list (string * string)))
    (deleted : Z) : Run Σ Z :=
  match items with
  | [] => ret deleted
  | item :: rest =>
      step <- clear_item keep item ;;
      match step with
      | None => clear_loop keep rest deleted
      | Some _ => clear_loop keep rest (deleted + 1)
      end
  end.

(** [clear_dir] (lines 273-321).  Iterating a decoded object walks its
    keys, which are strings: indexing the first one by ["type"] raises
    [TypeError]; an empty object gives an empty loop. *)
Definition clear_dir (keep : option (gset string)) (dir_path : option string)
    : Run Σ Z :=
  let target_dir := target_dir_of dir_path in
  let keep := keep_of keep in
  r <- session (get_request target_dir) ;;
  if negb (ok r) then raise (RuntimeError ("无法读取目录: " +:+ target_dir))
  else
    match json_body r with
    | None => raise JSONDecodeError
    | Some (JArray items) => clear_loop keep items 0
    | Some (JObject []) => ret 0
    | Some (JObject (_ :: _)) => raise TypeError
    end.

(** [{f: self.upload(f) for f in files}] (line 333), filling the dict
    [acc] from left to right. *)
Fixpoint upload_into (acc : gmap string string) (files : list string)
    : Run Σ (gmap string string) :=
  match files with
  | [] => ret acc
  | f :: rest =>
      url <- upload f ;;
      upload_into (<[f := url]> acc) rest
  end.

(** [upload_many] (lines 326-333) *)
Definition upload_many (files : list string) : Run Σ (gmap string string) :=
  upload_into ∅ files.

(** [delete_many] (lines 335-340) *)
Fixpoint delete_many (filenames : list string) : Run Σ unit :=
  match filenames with
  | [] => ret tt
  | f :: rest => _ <- delete f ;; delete_many rest
  end.

(** [update_many] (lines 342-349) over [files.items()] *)
Fixpoint update_into (acc : gmap string string) (items : list (string * string))
    : Run Σ (gmap string string) :=
  match items with
  | [] => ret acc
  | (src, dst) :: rest =>
      url <- update src (Some dst) ;;
      update_into (<[src := url]> acc) rest
  end.

Definition update_many (items : list (string * string)) : Run Σ (gmap string string) :=
  update_into ∅ items.

End Client.

(** ** Reading a log *)

(** The mutating requests of a log, in the order they were sent. *)
Fixpoint writes (evs : list event) : list request :=
  match evs with
  | [] => []
  | Sent rq :: rest => if mutating rq then rq :: writes rest else writes rest
  | _ :: rest => writes rest
  end.

(** The gate discipline of one thread: with [held] permits in hand at the
    start, every mutating request of the log is sent while the thread
    holds a permit, and the permits are all given back at the end. *)
Fixpoint gated (held : nat) (evs : list event) : bool :=
  match evs with
  | [] => Nat.eqb held 0
  | Acquire :: rest => gated (S held) rest
  | Release :: rest => match held with O => false | S h => gated h rest end
  | Sent rq :: rest => (negb (mutating rq) || negb (Nat.eqb held 0)) && gated held rest
  end.

(** ** Directory listings and batches, as the statements below read them *)


Definition entry_field (key : string) (item : list (string * string)) : string :=
  match field key item with inr v => v | inl _ => "" end.


(** The delete request for a listed entry, with the entry's own hash. *)
Definition entry_delete (self : GitHubImageHost) (item : list (string * string)) : request :=
  delete_request self (entry_field "path" item)
    [ ("message", "delete " +:+ entry_field "name" item);
      ("sha", entry_field "sha" item);
      ("branch", branch self) ].

(** What one gated request leaves in the log. *)
Definition gate_round (rq : request) : list event := [Acquire; Sent rq; Release].

(** The dict a comprehension over [files] builds from the values [urls]:
    a later pair replaces an earlier one with the same key. *)
Definition filled (acc : gmap string string) (files urls : list string)
    : gmap string string :=
  foldl (fun m p => <[p.1 := p.2]> m) acc (zip files urls).

Section Scenarios.

Context {Σ : Type} `{!Host Σ}.


(** Each single [upload] of the batch returns, each starting where the
    one before it ended. *)
Inductive uploaded (self : GitHubImageHost)
    : list string → World Σ → list string → World Σ → Prop :=
  | uploaded_nil w : uploaded self [] w [] w
  | uploaded_cons f files w url w1 urls w2 :
      upload self f w = (Ret url, w1) →
      uploaded self files w1 urls w2 →
      uploaded self (f :: files) w (url :: urls) w2.

(** The same for the [update]s of a batch of (local path, target name)
    pairs, and for the [delete]s of a batch of filenames. *)
Inductive updated (self : GitHubImageHost)
    : list (string * string) → World Σ → list string → World Σ → Prop :=
  | updated_nil w : updated self [] w [] w
  | updated_cons src dst items w url w1 urls w2 :
      update self src (Some dst) w = (Ret url, w1) →
      updated self items w1 urls w2 →
      updated self ((src, dst) :: items) w (url :: urls) w2.

Inductive deleted (self : GitHubImageHost)
    : list string → World Σ → World Σ → Prop :=
  | deleted_nil w : deleted self [] w w
  | deleted_cons f filenames w w1 w2 :
      delete self f w = (Ret tt, w1) →
      deleted self filenames w1 w2 →
      deleted self (f :: filenames) w w2.

(** The host answers the lookup of each of the filenames with 404, one
    after the other. *)
Inductive answered_absent (self : GitHubImageHost) : list string → Σ → Σ → Prop :=
  | absent_nil σ : answered_absent self [] σ σ
  | absent_cons f filenames σ r σ1 σ2 :
      send σ (get_request self (subdir self +:+ f)) = (inr r, σ1) →
      status_code r = 404 →
      answered_absent self filenames σ1 σ2 →
      answered_absent self (f :: filenames) σ (σ2).

End Scenarios.

(** ** The requests and the stamp, written out

    What the contents API expects of each request (method, address under
    /repos/{owner}/{repo}/contents/, body fields, timeout) and what the
    stamp of a rename looks like, spelled out field by field and digit by
    digit.  None of this is used by the client above: the facts below
    compare what the client sends with these. *)

Definition api_address (self : GitHubImageHost) (path : string) : string :=
  "https://api.github.com/repos/" +:+ owner self +:+ "/" +:+ repo self
    +:+ "/contents/" +:+ path.

Definition expected_lookup (self : GitHubImageHost) (path : string) : request :=
  {| rq_method := GET; rq_url := api_address self path; rq_headers := headers self;
     rq_data := None; rq_timeout := None |}.

Definition expected_placeholder (self : GitHubImageHost) : request :=
  {| rq_method := PUT; rq_url := api_address self (subdir self +:+ ".gitkeep");
     rq_headers := headers self;
     rq_data := Some [ ("message", "init dir"); ("content", ""); ("branch", branch self) ];
     rq_timeout := None |}.

Definition expected_create (self : GitHubImageHost) (name content : string) : request :=
  {| rq_method := PUT; rq_url := api_address self (subdir self +:+ name);
     rq_headers := headers self;
     rq_data := Some [ ("message", "upload " +:+ name); ("content", content);
                       ("branch", branch self) ];
     rq_timeout := Some 30 |}.

Definition expected_overwrite (self : GitHubImageHost) (name content sha : string)
    : request :=
  {| rq_method := PUT; rq_url := api_address self (subdir self +:+ name);
     rq_headers := headers self;
     rq_data := Some [ ("message", "update " +:+ name); ("content", content);
                       ("sha", sha); ("branch", branch self) ];
     rq_timeout := None |}.

Definition expected_removal (self : GitHubImageHost) (path name sha : string) : request :=
  {| rq_method := DELETE; rq_url := api_address self path; rq_headers := headers self;
     rq_data := Some [ ("message", "delete " +:+ name); ("sha", sha);
                       ("branch", branch self) ];
     rq_timeout := None |}.




(** The character of the last decimal digit of [d]: the one at code
    48 + digit.  The digit of [n] at the place [10 ^ k] is the last digit
    of [n / 10 ^ k]. *)
Definition digit_char (d : N) : ascii := ascii_of_N (48 + d mod 10).

Definition two_digits (n : N) : string :=
  String (digit_char (n / 10)) (String (digit_char n) "").

Definition four_digits (n : N) : string :=
  String (digit_char (n / 1000)) (String (digit_char (n / 100))
    (String (digit_char (n / 10)) (String (digit_char n) ""))).

(** YYYYMMDD-HHMMSS of a UTC time. *)
Definition yyyymmdd_hhmmss (t : struct_time) : string :=
  four_digits (tm_year t) +:+ two_digits (tm_mon t) +:+ two_digits (tm_mday t)
    +:+ "-" +:+ two_digits (tm_hour t) +:+ two_digits (tm_min t)
    +:+ two_digits (tm_sec t).

(** ** A scripted host, for running the client on concrete inputs

    The session answers the requests it receives with the entries of
    [answers], in order, and with a bare 404 once they are used up. *)

Record Script : Type := {
  answers : list (exn + response);
  clock : struct_time;
  local_files : list (string * list byte)
}.

Definition reply (code : Z) (body : string) (j : option json) : exn + response :=
  inr {| status_code := code; text := body; json_body := j |}.

Fixpoint local_lookup (file_path : string) (fs : list (string * list byte))
    : option (list byte) :=
  match fs with
  | [] => None
  | (p, bytes) :: rest => if String.eqb p file_path then Some bytes else local_lookup file_path rest
  end.

#[global] Instance script_host : Host Script := {
  send σ rq :=
    match answers σ with
    | a :: rest => (a, {| answers := rest; clock := clock σ; local_files := local_files σ |})
    | [] => (reply 404 "Not Found" None, σ)
    end;
  gmtime σ := clock σ;
  is_file σ p := match local_lookup p (local_files σ) with Some _ => true | None => false end;
  read_bytes σ p :=
    match local_lookup p (local_files σ) with
    | Some bytes => inr bytes
    | None => inl (FileNotFoundError p)
    end
}.

Definition demo_time : struct_time :=
  {| tm_year := 2026; tm_mon := 3; tm_mday := 9; tm_hour := 7; tm_min := 5; tm_sec := 0 |}.

Definition demo_store : GitHubImageHost :=
  {| owner := "octo"; repo := "pics"; branch := "main"; subdir := "img/";
     token := "t0ken"; custom_cdn := None; headers := make_headers "t0ken" |}.

Definition demo_world (script : list (exn + response)) : World Script :=
  mkWorld {| answers := script; clock := demo_time;
             local_files := [("shots/cat.png", ["M"%byte; "a"%byte; "n"%byte])] |}
          4 [].

(** The headers of [demo_store], written out. *)
Definition demo_headers : list (string * string) :=
  [ ("Authorization", "Bearer t0ken");
    ("Accept", "application/vnd.github+json");
    ("X-GitHub-Api-Version", "2022-11-28") ].

(** Sample answers of the contents API. *)
Definition not_found : exn + response := reply 404 "Not Found" None.
Definition created : exn + response := reply 201 "created" (Some (JObject [])).
Definition conflict : exn + response := reply 422 "sha was not supplied" None.
Definition server_error : exn + response :=
  reply 500 "boom" (Some (JObject [("message", "Server Error")])).
Definition removed : exn + response := reply 200 "removed" (Some (JObject [])).

Definition listed (ty name sha : string) : list (string * string) :=
  [ ("name", name); ("path", "img/" +:+ name); ("sha", sha); ("type", ty) ].

Definition demo_listing : list (list (string * string)) :=
  [ listed "file" "a.png" "s1"; listed "dir" "old" "s2";
    listed "file" "b.png" "s3"; listed "file" "c.png" "s4" ].

Definition listing_reply : exn + response :=
  reply 200 "[...]" (Some (JArray demo_listing)).

Definition found : exn + response :=
  reply 200 "file" (Some (JObject [("sha", "abc"); ("type", "file")])).

(** The world of [demo_world] at another time. *)
Definition demo_world_at (t : struct_time) (script : list (exn + response))
    : World Script :=
  mkWorld {| answers := script; clock := t;
             local_files := [("shots/cat.png", ["M"%byte; "a"%byte; "n"%byte])] |}
          4 [].

Definition new_year_eve : struct_time :=
  {| tm_year := 1999; tm_mon := 12; tm_mday := 31; tm_hour := 23; tm_min := 59;
     tm_sec := 58 |}.

(** The world of [demo_world] with another value of the semaphore. *)
Definition demo_world_with (permits : Z) (script : list (exn + response)) : World Script :=
  mkWorld (host (demo_world script)) permits [].

(** ** Threads sharing the semaphore

    Several threads call into one instance.  Each thread is what it still
    has to do (a log, as the calls above produce them), the number of
    permits it holds, and the request it is waiting on, if any: a request
    is in flight from the moment it is sent until its answer is in. *)

Record thread : Type := {
  held : nat;
  flying : option request;
  todo : list event
}.

Record pool : Type := {
  permits : Z;
  threads : list thread
}.

(** One step of one thread, against the value of the semaphore:
    [acquire] needs a positive value, [release] always goes through. *)
Inductive thread_step : Z → thread → Z → thread → Prop :=
  | step_acquire p h rest :
      0 < p →
      thread_step p {| held := h; flying := None; todo := Acquire :: rest |}
                  (p - 1) {| held := S h; flying := None; todo := rest |}
  | step_release p h rest :
      thread_step p {| held := h; flying := None; todo := Release :: rest |}
                  (p + 1) {| held := pred h; flying := None; todo := rest |}
  | step_send p h rq rest :
      thread_step p {| held := h; flying := None; todo := Sent rq :: rest |}
                  p {| held := h; flying := Some rq; todo := rest |}
  | step_answer p h rq rest :
      thread_step p {| held := h; flying := Some rq; todo := rest |}
                  p {| held := h; flying := None; todo := rest |}.

Inductive pool_step : pool → pool → Prop :=
  | pool_step_at p ts i t p' t' :
      ts !! i = Some t →
      thread_step p t p' t' →
      pool_step {| permits := p; threads := ts |}
                {| permits := p'; threads := <[i := t']> ts |}.

(** The thread waits for the answer to a mutating request. *)
Definition writing (t : thread) : bool :=
  match flying t with Some rq => mutating rq | None => false end.

Definition in_flight_writes (ts : list thread) : nat :=
  length (List.filter writing ts).

(** A thread about to run the given log. *)
Definition fresh_thread (evs : list event) : thread :=
  {| held := 0; flying := None; todo := evs |}.

(** What keeps a thread inside the discipline while it runs. *)
Definition thread_ok (t : thread) : Prop :=
  match flying t with
  | Some rq => gated (held t) (Sent rq :: todo t) = true
  | None => gated (held t) (todo t) = true
  end.

Definition pool_ok (n : Z) (pl : pool) : Prop :=
  0 ≤ permits pl
  ∧ permits pl + Z.of_nat (sum_list_with held (threads pl)) = n
  ∧ Forall thread_ok (threads pl).

(** The two requests [_ensure_dir] logs on a store whose directory probe
    fails: the probe and the placeholder create. *)
Definition placeholder_log (self : GitHubImageHost) : list event :=
  [ Sent (get_request self (subdir self));
    Sent (put_request self (subdir self +:+ ".gitkeep") (gitkeep_body self) None) ].

(** ** Proof steps shared by the facts below *)

(** Unfold one layer of the monad and let the known answers reduce. *)
Ltac run := unfold bind, session, ret, raise, lift, now, path_is_file, path_read_bytes; simpl.

(** Case analysis on everything the host decides in a run. *)
Ltac split_run :=
  repeat match goal with
         | |- context [match send ?σ ?rq with _ => _ end] =>
             let answer := fresh "answer" in
             let σ' := fresh "σ" in
             destruct (send σ rq) as [[?|answer] σ'] eqn:?; cbn
         | |- context [if ?b then _ else _] => destruct b eqn:?; cbn
         | |- context [match json_sha ?r with _ => _ end] =>
             destruct (json_sha r) eqn:?; cbn
         | |- context [match read_bytes ?σ ?p with _ => _ end] =>
             destruct (read_bytes σ p) eqn:?; cbn
         | |- context [match field ?k ?item with _ => _ end] =>
             destruct (field k item) eqn:?; cbn
         end.

Ltac close_gated :=
  cbn; rewrite <- ?app_assoc; cbn;
  first [ eexists; split; [reflexivity|]; split; [reflexivity|lia]
        | exists []; rewrite app_nil_r; split; [reflexivity|]; split; [reflexivity|lia] ].

(** One move of thread [i] of a pool, and the three moves that put its
    placeholder create in flight. *)
Ltac pool_move i rule :=
  eapply rtc_l;
  [ eapply (pool_step_at _ _ i); [reflexivity|eapply rule; try lia] | cbn ].

Ltac send_placeholder i :=
  pool_move i step_send; pool_move i step_answer; pool_move i step_send.

(** * Facts *)

(** ** Sanity checks of the primitives *)

Example normalize_examples :
  normalize_subdir "img" = "img/" ∧ normalize_subdir "/img/" = "img/" ∧
  normalize_subdir "img/" = "img/" ∧ normalize_subdir "" = "".
Proof. repeat split; reflexivity. Qed.

Example path_examples :
  PyPath.name "pics/cat.tar.gz" = "cat.tar.gz" ∧
  PyPath.stem "pics/cat.tar.gz" = "cat.tar" ∧
  PyPath.suffix "pics/cat.tar.gz" = ".gz" ∧
  PyPath.stem ".bashrc" = ".bashrc" ∧ PyPath.suffix ".bashrc" = "" ∧
  PyPath.name "a/b/" = "b" ∧ PyPath.suffix "x." = "".
Proof. repeat split; reflexivity. Qed.

Example b64_examples :
  Base64.b64encode [] = "" ∧
  Base64.b64encode ["M"%byte] = "TQ==" ∧
  Base64.b64encode ["M"%byte; "a"%byte] = "TWE=" ∧
  Base64.b64encode ["M"%byte; "a"%byte; "n"%byte] = "TWFu".
Proof. repeat split; reflexivity. Qed.


(** ** Stripping separators *)

Lemma mem_slash c : PyStr.mem c "/" = Ascii.eqb c "/".
Proof. unfold PyStr.mem. simpl. apply orb_false_r. Qed.

Lemma lstrip_no_leading_slash s :
  PyStr.starts_with "/" (PyStr.lstrip "/" s) = false.
Proof.
  induction s as [|c s IH]; simpl; [reflexivity|].
  rewrite mem_slash. destruct (Ascii.eqb c "/") eqn:E; [exact IH|].
  simpl. exact E.
Qed.

Lemma lstrip_id s :
  PyStr.starts_with "/" s = false → PyStr.lstrip "/" s = s.
Proof.
  destruct s as [|c s]; simpl; [reflexivity|].
  rewrite mem_slash. intros ->. reflexivity.
Qed.

Lemma rstrip_no_trailing_slash s :
  PyStr.ends_with "/" (PyStr.rstrip "/" s) = false.
Proof.
  induction s as [|c s IH]; simpl; [reflexivity|].
  destruct (PyStr.rstrip "/" s) as [|d kept] eqn:E.
  - rewrite mem_slash. destruct (Ascii.eqb c "/") eqn:Ec; simpl; [reflexivity|exact Ec].
  - exact IH.
Qed.

Lemma rstrip_keeps_head s :
  PyStr.starts_with "/" s = false →
  PyStr.starts_with "/" (PyStr.rstrip "/" s) = false.
Proof.
  destruct s as [|c s]; simpl; [reflexivity|].
  intros Hc. destruct (PyStr.rstrip "/" s); [|exact Hc].
  rewrite mem_slash, Hc. exact Hc.
Qed.

Lemma strip_no_leading_slash s :
  PyStr.starts_with "/" (PyStr.strip "/" s) = false.
Proof. apply rstrip_keeps_head, lstrip_no_leading_slash. Qed.

Lemma strip_no_trailing_slash s :
  PyStr.ends_with "/" (PyStr.strip "/" s) = false.
Proof. apply rstrip_no_trailing_slash. Qed.

Lemma starts_with_append c s t :
  s ≠ "" → PyStr.starts_with c (s +:+ t) = PyStr.starts_with c s.
Proof. destruct s; [congruence|reflexivity]. Qed.

Lemma ends_with_append_char c s :
  PyStr.ends_with c (s +:+ String c "") = true.
Proof.
  induction s as [|d s IH]; simpl; [apply Ascii.eqb_refl|].
  destruct (s +:+ String c "") eqn:E; [destruct s; discriminate|exact IH].
Qed.

(** X1: every input with something besides separators in it is stored as
    its stripped form followed by one '/': no leading separator, and
    exactly one trailing one, since the stripped form has none. *)
Lemma normalize_subdir_shape (s : string) :
  PyStr.strip "/" s ≠ "" →
  normalize_subdir s = PyStr.strip "/" s +:+ "/"
  ∧ PyStr.starts_with "/" (normalize_subdir s) = false
  ∧ PyStr.ends_with "/" (normalize_subdir s) = true
  ∧ PyStr.ends_with "/" (PyStr.strip "/" s) = false.
Proof.
  intros Hne.
  assert (Hs : normalize_subdir s = PyStr.strip "/" s +:+ "/").
  { unfold normalize_subdir. destruct s; [exfalso; apply Hne; reflexivity|reflexivity]. }
  rewrite Hs. repeat split.
  - rewrite starts_with_append by exact Hne. apply strip_no_leading_slash.
  - apply ends_with_append_char.
  - apply strip_no_trailing_slash.
Qed.

Lemma normalize_subdir_shape_witness :
  normalize_subdir "//docs/img//" = "docs/img/".
Proof.
  rewrite (proj1 (normalize_subdir_shape "//docs/img//" ltac:(discriminate))).
  reflexivity.
Defined.

(** A non-empty input made of separators only is stored as "/". *)
Lemma normalize_subdir_separators (s : string) :
  s ≠ "" → PyStr.strip "/" s = "" → normalize_subdir s = "/".
Proof.
  intros Hne Hs. unfold normalize_subdir.
  destruct s; [congruence|]. simpl PyStr.truthy. cbv iota. rewrite Hs. reflexivity.
Qed.

(** C3, at the input "/": the guard of line 65 tests the raw input, so a
    subdirectory given as a lone separator is stored as "/", which is not
    empty and starts with a separator ("///" ends the same way). *)
Theorem normalize_subdir_lone_separator :
  normalize_subdir "/" = "/"
  ∧ PyStr.starts_with "/" (normalize_subdir "/") = true
  ∧ normalize_subdir "///" = "/".
Proof. repeat split; reflexivity. Qed.

(** ** CDN links *)

(** C7, as the claim states it, fails at an empty subdirectory and the
    filename "/a.png": the composed string has "//" before "a.png", the
    link the code builds has a single one. *)
Lemma cdn_url_leading_separator :
  let store := {| owner := "o"; repo := "r"; branch := "main"; subdir := "";
                  token := "t"; custom_cdn := None; headers := [] |} in
  _cdn_url store "/a.png" = "https://cdn.jsdelivr.net/gh/o/r@main/a.png"
  ∧ "https://cdn.jsdelivr.net/gh/" +:+ owner store +:+ "/" +:+ repo store +:+ "@"
      +:+ branch store +:+ "/" +:+ subdir store +:+ "/a.png"
    = "https://cdn.jsdelivr.net/gh/o/r@main//a.png"
  ∧ _cdn_url store "/a.png"
    ≠ "https://cdn.jsdelivr.net/gh/" +:+ owner store +:+ "/" +:+ repo store +:+ "@"
        +:+ branch store +:+ "/" +:+ subdir store +:+ "/a.png".
Proof. repeat split; try reflexivity. discriminate. Qed.

(** C7, amended: the link is composed from [rel], the string
    {subdir}{filename} without its leading separators, which is
    {subdir}{filename} itself whenever that does not start with one; an
    empty custom base counts as none; [get_url] is the same pure string. *)
Theorem cdn_url_composition (self : GitHubImageHost) (filename : string) :
  let rel := PyStr.lstrip "/" (subdir self +:+ filename) in
  (PyStr.truthy_opt (custom_cdn self) = false →
     _cdn_url self filename
     = "https://cdn.jsdelivr.net/gh/" +:+ owner self +:+ "/" +:+ repo self +:+ "@"
         +:+ branch self +:+ "/" +:+ rel)
  ∧ (∀ X, custom_cdn self = Some X → X ≠ "" →
     _cdn_url self filename = PyStr.rstrip "/" X +:+ "/" +:+ rel)
  ∧ (PyStr.starts_with "/" (subdir self +:+ filename) = false →
     rel = subdir self +:+ filename)
  ∧ PyStr.starts_with "/" rel = false
  ∧ get_url self filename = _cdn_url self filename.
Proof.
  intros rel. unfold get_url, _cdn_url. fold rel. repeat split.
  - intros ->. reflexivity.
  - intros X -> HX. destruct X; [congruence|reflexivity].
  - apply lstrip_id.
  - apply lstrip_no_leading_slash.
Qed.

Lemma cdn_url_composition_witness :
  _cdn_url demo_store "cat.png" = "https://cdn.jsdelivr.net/gh/octo/pics@main/img/cat.png".
Proof.
  destruct (cdn_url_composition demo_store "cat.png") as (Hdefault & _ & Hrel & _).
  rewrite (Hdefault eq_refl), (Hrel eq_refl). reflexivity.
Defined.

(** ** Construction *)

(** C10: an explicit empty credential is resolved exactly like an omitted
    one, from the environment variable; construction raises the
    missing-credential error exactly when the variable is unset or empty;
    otherwise the credential of the store is the variable's value. *)
Theorem init_empty_token_falls_back
    (owner repo branch subdir : string) (custom_cdn : option string)
    (max_concurrency : Z) (env_pat : option string) :
  __init__ owner repo branch subdir (Some "") custom_cdn max_concurrency env_pat
  = __init__ owner repo branch subdir None custom_cdn max_concurrency env_pat
  ∧ (__init__ owner repo branch subdir (Some "") custom_cdn max_concurrency env_pat
     = inl missing_pat ↔ env_pat = None ∨ env_pat = Some "")
  ∧ (∀ store permits,
       __init__ owner repo branch subdir (Some "") custom_cdn max_concurrency env_pat
       = inr (store, permits) → env_pat = Some (token store)).
Proof.
  unfold __init__, resolve_token. simpl. split; [reflexivity|]. split.
  - destruct env_pat as [[|c tok]|]; simpl.
    + split; [intros _; right|]; reflexivity.
    + destruct (max_concurrency <? 0); split; try discriminate;
        intros [?|?]; discriminate.
    + split; [intros _; left|]; reflexivity.
  - intros store permits. destruct env_pat as [[|c tok]|]; simpl; try discriminate.
    destruct (max_concurrency <? 0); [discriminate|].
    intros [= <- _]. reflexivity.
Qed.

(** ** Paths *)

Lemma append_cons c a b : String c a +:+ b = String c (a +:+ b).
Proof. reflexivity. Qed.

Lemma take_drop i s : PyStr.take i s +:+ PyStr.drop i s = s.
Proof.
  revert s; induction i as [|i IH]; intros [|c s]; simpl; try reflexivity.
  rewrite append_cons. f_equal. apply IH.
Qed.

Lemma stem_suffix file_path :
  PyPath.stem file_path +:+ PyPath.suffix file_path = PyPath.name file_path.
Proof.
  unfold PyPath.stem, PyPath.suffix.
  destruct (PyPath.suffix_dot (PyPath.name file_path)).
  - apply take_drop.
  - induction (PyPath.name file_path) as [|c s IH]; [reflexivity|].
    rewrite append_cons. f_equal. exact IH.
Qed.

Lemma append_cancel_l p a b : p +:+ a = p +:+ b → a = b.
Proof.
  induction p as [|c p IH]; [exact (fun H => H)|].
  rewrite !append_cons. intros [= H]. auto.
Qed.

Lemma length_append a b :
  String.length (a +:+ b) = (String.length a + String.length b)%nat.
Proof.
  induction a as [|c a IH]; [reflexivity|].
  rewrite append_cons. simpl. f_equal. exact IH.
Qed.

Lemma append_assoc a b c : (a +:+ b) +:+ c = a +:+ b +:+ c.
Proof.
  induction a as [|x a IH]; [reflexivity|].
  rewrite !append_cons. f_equal. exact IH.
Qed.

Example stamp_example : strftime_stamp demo_time = "20260309-070500".
Proof. vm_compute. reflexivity. Qed.

(** ** The shape of the time stamp *)

Lemma pow10_succ (d : nat) : (10 ^ N.of_nat (S d) = 10 * 10 ^ N.of_nat d)%N.
Proof. rewrite Nat2N.inj_succ. apply N.pow_succ_r'. Qed.

(** A number with [digits] decimal digits is printed on [digits]
    characters. *)
Lemma pretty_go_length (digits : nat) :
  ∀ (x : N) (s : string),
    (0 < x)%N → (x < 10 ^ N.of_nat digits)%N → (10 ^ N.of_nat digits ≤ 10 * x)%N →
    String.length (pretty_N_go x s) = (digits + String.length s)%nat.
Proof.
  induction digits as [|digits IH]; intros x s Hpos Hlt Hge.
  { cbn in Hlt. lia. }
  rewrite pretty_N_go_step by exact Hpos.
  pose proof (N.div_mod x 10 ltac:(lia)) as Hx.
  pose proof (N.mod_lt x 10 ltac:(lia)) as Hr.
  destruct digits as [|digits].
  - cbn in Hlt. rewrite N.div_small by lia. rewrite pretty_N_go_0. reflexivity.
  - rewrite pow10_succ in Hlt, Hge.
    assert (HQ : (1 ≤ 10 ^ N.of_nat digits)%N).
    { apply N.lt_pred_le, N.neq_0_lt_0, N.pow_nonzero. lia. }
    rewrite IH; [cbn; lia| | |]; rewrite ?pow10_succ in *;
      [lia|apply N.Div0.div_lt_upper_bound; exact Hlt|lia].
Qed.

Lemma pad2_length (n : N) : (n < 100)%N → String.length (pad2 n) = 2%nat.
Proof.
  intros Hn. unfold pad2. destruct (n <? 10)%N eqn:E.
  - apply N.ltb_lt in E. rewrite length_append. cbn [String.length]. f_equal.
    unfold pretty, pretty_N. case_decide; [reflexivity|].
    rewrite (pretty_go_length 1 n) by (cbn; lia). reflexivity.
  - apply N.ltb_ge in E. unfold pretty, pretty_N. case_decide; [lia|].
    rewrite (pretty_go_length 2 n) by (cbn; lia). reflexivity.
Qed.

Lemma year_length (y : N) :
  (1000 ≤ y < 10000)%N → String.length (pretty y) = 4%nat.
Proof.
  intros Hy. unfold pretty, pretty_N. case_decide; [lia|].
  rewrite (pretty_go_length 4 y) by (cbn; lia). reflexivity.
Qed.

(** X5: for a UTC time with a four-digit year the stamp reads
    YYYYMMDD-HHMMSS, fifteen characters with the dash at index 8. *)
Lemma strftime_stamp_shape (t : struct_time) :
  is_utc_time t = true →
  String.length (strftime_stamp t) = 15%nat
  ∧ String.get 8 (strftime_stamp t) = Some "-"%char.
Proof.
  unfold is_utc_time. rewrite !andb_true_iff, N.leb_le, !N.ltb_lt.
  intros [[[[[[Hy1 Hy2] Hmon] Hday] Hh] Hm] Hs].
  pose proof (year_length _ (conj Hy1 Hy2)) as Ly.
  pose proof (pad2_length _ Hmon) as Lmon. pose proof (pad2_length _ Hday) as Lday.
  pose proof (pad2_length _ Hh) as Lh. pose proof (pad2_length _ Hm) as Lm.
  pose proof (pad2_length _ Hs) as Ls.
  unfold strftime_stamp. split.
  - rewrite !length_append, Ly, Lmon, Lday, Lh, Lm, Ls. reflexivity.
  - pose proof (append_correct2
                  ((pretty (tm_year t) +:+ pad2 (tm_mon t)) +:+ pad2 (tm_mday t))
                  ("-" +:+ pad2 (tm_hour t) +:+ pad2 (tm_min t) +:+ pad2 (tm_sec t))
                  0) as Hget.
    rewrite !length_append, Ly, Lmon, Lday, !append_assoc in Hget.
    change (0 + (4 + 2 + 2))%nat with 8%nat in Hget.
    rewrite <- Hget. reflexivity.
Qed.

Lemma strftime_stamp_shape_witness :
  String.length (strftime_stamp demo_time) = 15%nat.
Proof. exact (proj1 (strftime_stamp_shape demo_time eq_refl)). Defined.

Lemma pretty_char_digit (d : N) : (d < 10)%N → pretty_N_char d = digit_char d.
Proof.
  intros Hd.
  assert (Hcases : (d = 0 ∨ d = 1 ∨ d = 2 ∨ d = 3 ∨ d = 4 ∨ d = 5 ∨ d = 6 ∨ d = 7
                    ∨ d = 8 ∨ d = 9)%N) by lia.
  repeat destruct Hcases as [->|Hcases]; try reflexivity. subst d. reflexivity.
Qed.

Lemma digit_char_mod (x : N) : digit_char (x mod 10) = digit_char x.
Proof. unfold digit_char. now rewrite N.Div0.mod_mod. Qed.

Lemma pretty_go_digit (x : N) (s : string) :
  (0 < x)%N →
  pretty_N_go x s = pretty_N_go (x / 10) (String (digit_char x) s).
Proof.
  intros Hx. rewrite pretty_N_go_step by exact Hx.
  rewrite pretty_char_digit by (apply N.mod_lt; lia). now rewrite digit_char_mod.
Qed.

Lemma pad2_digits (n : N) : (n < 100)%N → pad2 n = two_digits n.
Proof.
  intros Hn. unfold pad2, two_digits. destruct (n <? 10)%N eqn:E.
  - apply N.ltb_lt in E. rewrite (N.div_small n 10) by exact E.
    unfold pretty, pretty_N. case_decide as Hz; [now subst n|].
    rewrite pretty_go_digit by lia. rewrite (N.div_small n 10) by exact E.
    now rewrite pretty_N_go_0.
  - apply N.ltb_ge in E. unfold pretty, pretty_N. case_decide; [lia|].
    rewrite pretty_go_digit by lia.
    assert (Hq : (0 < n / 10)%N) by (apply N.div_str_pos; lia).
    rewrite pretty_go_digit by exact Hq.
    rewrite N.Div0.div_div. change (10 * 10)%N with 100%N.
    rewrite (N.div_small n 100) by exact Hn. now rewrite pretty_N_go_0.
Qed.

Lemma year_digits (y : N) : (1000 ≤ y < 10000)%N → pretty y = four_digits y.
Proof.
  intros Hy. unfold four_digits, pretty, pretty_N. case_decide; [lia|].
  rewrite pretty_go_digit by lia.
  rewrite pretty_go_digit by (apply N.div_str_pos; lia).
  rewrite N.Div0.div_div. change (10 * 10)%N with 100%N.
  rewrite pretty_go_digit by (apply N.div_str_pos; lia).
  rewrite N.Div0.div_div. change (100 * 10)%N with 1000%N.
  rewrite pretty_go_digit by (apply N.div_str_pos; lia).
  rewrite N.Div0.div_div. change (1000 * 10)%N with 10000%N.
  rewrite (N.div_small y 10000) by lia. now rewrite pretty_N_go_0.
Qed.

(** For a UTC time with a four-digit year the stamp the client computes
    is YYYYMMDD-HHMMSS, digit for digit. *)
Lemma strftime_stamp_digits (t : struct_time) :
  is_utc_time t = true → strftime_stamp t = yyyymmdd_hhmmss t.
Proof.
  unfold is_utc_time. rewrite !andb_true_iff, N.leb_le, !N.ltb_lt.
  intros [[[[[[Hy1 Hy2] Hmon] Hday] Hh] Hm] Hs].
  unfold strftime_stamp, yyyymmdd_hhmmss.
  now rewrite (year_digits _ (conj Hy1 Hy2)), !pad2_digits by assumption.
Qed.

(** The renamed file never has the name of the file it collided with. *)
Lemma renamed_differs file_path ts :
  PyPath.stem file_path +:+ "-" +:+ ts +:+ PyPath.suffix file_path
  ≠ PyPath.name file_path.
Proof.
  rewrite <- (stem_suffix file_path). intros H.
  apply append_cancel_l in H. apply (f_equal String.length) in H.
  rewrite !length_append in H. simpl in H. lia.
Qed.

Lemma writes_app evs1 evs2 : writes (evs1 ++ evs2) = writes evs1 ++ writes evs2.
Proof.
  induction evs1 as [|[| |rq] evs1 IH]; simpl; try exact IH; [reflexivity|].
  destruct (mutating rq); simpl; now rewrite IH.
Qed.

(** ** The operations, step by step *)

Section ClientFacts.

Context {Σ : Type} `{!Host Σ}.
Variable self : GitHubImageHost.

Lemma bind_ret {A B} (m : Run Σ A) (k : A → Run Σ B) w a w' :
  m w = (Ret a, w') → bind m k w = k a w'.
Proof. intros H. unfold bind. now rewrite H. Qed.

Lemma bind_raise {A B} (m : Run Σ A) (k : A → Run Σ B) w e w' :
  m w = (Raise e, w') → bind m k w = (Raise e, w').
Proof. intros H. unfold bind. now rewrite H. Qed.

Lemma bind_blocked {A B} (m : Run Σ A) (k : A → Run Σ B) w w' :
  m w = (Blocked, w') → bind m k w = (Blocked, w').
Proof. intros H. unfold bind. now rewrite H. Qed.

Lemma session_answer (rq : request) (w : World Σ) answer σ' :
  send (host w) rq = (answer, σ') →
  session rq w
  = (match answer with inl e => Raise e | inr r => Ret r end,
     mkWorld σ' (sema w) (log w ++ [Sent rq])).
Proof. intros H. unfold session. rewrite H. destruct answer; reflexivity. Qed.

(** A body that returns or raises runs with one permit less and gives it
    back; the value of the semaphore is restored either way. *)
Lemma with_sema_released {A} (body : Run Σ A) (w w' : World Σ) res :
  0 < sema w →
  body (mkWorld (host w) (sema w - 1) (log w ++ [Acquire])) = (res, w') →
  res ≠ Blocked →
  with_sema body w = (res, mkWorld (host w') (sema w' + 1) (log w' ++ [Release])).
Proof.
  intros Hs Hb Hres. unfold with_sema. apply Z.ltb_lt in Hs. rewrite Hs, Hb.
  destruct res; congruence.
Qed.

Lemma with_sema_parked {A} (body : Run Σ A) (w : World Σ) :
  sema w ≤ 0 → with_sema body w = (Blocked, w).
Proof.
  intros Hs. unfold with_sema. apply Z.ltb_ge in Hs. now rewrite Hs.
Qed.

Lemma truthy_nonempty (s : string) : s ≠ "" → PyStr.truthy s = true.
Proof. destruct s; [congruence|reflexivity]. Qed.

(** *** [_ensure_dir] *)

Lemma ensure_dir_root (w : World Σ) :
  subdir self = "" → _ensure_dir self w = (Ret tt, w).
Proof. intros H. unfold _ensure_dir. rewrite H. reflexivity. Qed.

Lemma ensure_dir_present (w : World Σ) r σ1 :
  subdir self ≠ "" →
  send (host w) (get_request self (subdir self)) = (inr r, σ1) →
  ok r = true →
  _ensure_dir self w
  = (Ret tt, mkWorld σ1 (sema w) (log w ++ [Sent (get_request self (subdir self))])).
Proof.
  intros Hne Hget Hok. unfold _ensure_dir.
  rewrite (truthy_nonempty _ Hne). run. rewrite Hget, Hok. reflexivity.
Qed.

Lemma ensure_dir_absent (w : World Σ) r σ1 answer σ2 :
  subdir self ≠ "" →
  send (host w) (get_request self (subdir self)) = (inr r, σ1) →
  ok r = false →
  send σ1 (put_request self (subdir self +:+ ".gitkeep") (gitkeep_body self) None)
  = (answer, σ2) →
  _ensure_dir self w
  = (match answer with inl e => Raise e | inr _ => Ret tt end,
     mkWorld σ2 (sema w)
       (log w ++ [Sent (get_request self (subdir self));
                  Sent (put_request self (subdir self +:+ ".gitkeep")
                          (gitkeep_body self) None)])).
Proof.
  intros Hne Hget Hok Hput. unfold _ensure_dir.
  rewrite (truthy_nonempty _ Hne). run. rewrite Hget, Hok. simpl. rewrite Hput.
  rewrite <- app_assoc. destruct answer; reflexivity.
Qed.

(** Whatever the host answers, [_ensure_dir] leaves the semaphore alone,
    only appends to the log, and the only write it may send is the
    placeholder create. *)
Lemma ensure_dir_log (w : World Σ) :
  ∃ evs, log (snd (_ensure_dir self w)) = log w ++ evs
         ∧ sema (snd (_ensure_dir self w)) = sema w
         ∧ (subdir self = "" → evs = [])
         ∧ (writes evs = [] ∨
            writes evs = [put_request self (subdir self +:+ ".gitkeep")
                            (gitkeep_body self) None]).
Proof.
  unfold _ensure_dir. destruct (PyStr.truthy (subdir self)) eqn:E; simpl.
  2:{ exists []. rewrite app_nil_r. auto. }
  assert (Hne : subdir self ≠ "") by (intros H0; rewrite H0 in E; discriminate).
  run.
  destruct (send (host w) (get_request self (subdir self))) as [[e|r] σ1] eqn:Hget; simpl.
  { eexists. repeat split; [congruence|]. left. reflexivity. }
  destruct (ok r); simpl.
  { eexists. repeat split; [congruence|]. left. reflexivity. }
  destruct (send σ1 _) as [[e|r2] σ2] eqn:Hput; simpl;
    rewrite <- app_assoc; eexists; (repeat split; [congruence|]); right; reflexivity.
Qed.

(** A directory step that returns, request by request: nothing with the
    root as subdirectory; else the probe of the subdirectory, followed by
    the placeholder create exactly when the probe is not answered with
    success. *)
Lemma ensure_dir_returned (w w1 : World Σ) :
  _ensure_dir self w = (Ret tt, w1) →
  sema w1 = sema w
  ∧ ∃ evs, log w1 = log w ++ evs
      ∧ (subdir self = "" → evs = [])
      ∧ (∀ r σ1, subdir self ≠ "" →
           send (host w) (expected_lookup self (subdir self)) = (inr r, σ1) →
           evs = Sent (expected_lookup self (subdir self))
                 :: (if ok r then [] else [Sent (expected_placeholder self)]))
      ∧ (writes evs = [] ∨ writes evs = [expected_placeholder self]).
Proof.
  intros Hdir.
  change (expected_lookup self (subdir self)) with (get_request self (subdir self)).
  change (expected_placeholder self)
    with (put_request self (subdir self +:+ ".gitkeep") (gitkeep_body self) None).
  destruct (decide (subdir self = "")) as [Hempty|Hne].
  { rewrite (ensure_dir_root w Hempty) in Hdir. injection Hdir as <-.
    split; [reflexivity|]. exists []. rewrite app_nil_r.
    split; [reflexivity|]. split; [reflexivity|]. split; [contradiction|].
    left. reflexivity. }
  destruct (send (host w) (get_request self (subdir self))) as [[e|r] σ1] eqn:Hget.
  { exfalso. revert Hdir. unfold _ensure_dir. rewrite (truthy_nonempty _ Hne).
    run. rewrite Hget. discriminate. }
  destruct (ok r) eqn:Hok.
  - rewrite (ensure_dir_present w r σ1 Hne Hget Hok) in Hdir. injection Hdir as <-.
    split; [reflexivity|]. eexists. split; [reflexivity|].
    split; [contradiction|]. split; [|left; reflexivity].
    intros r0 σ0 _ [= <- <-]. now rewrite Hok.
  - destruct (send σ1 (put_request self (subdir self +:+ ".gitkeep")
                         (gitkeep_body self) None)) as [answer σ2] eqn:Hput.
    rewrite (ensure_dir_absent w r σ1 answer σ2 Hne Hget Hok Hput) in Hdir.
    destruct answer as [e|r2]; [discriminate|]. injection Hdir as <-.
    split; [reflexivity|]. eexists. split; [reflexivity|].
    split; [contradiction|]. split; [|right; reflexivity].
    intros r0 σ0 _ [= <- <-]. now rewrite Hok.
Qed.

(** What the requests of the directory step count for in writes. *)
Lemma dir_step_writes (w : World Σ) (evs : list event) :
  (subdir self = "" → evs = []) →
  (∀ r σ1, subdir self ≠ "" →
     send (host w) (expected_lookup self (subdir self)) = (inr r, σ1) →
     evs = Sent (expected_lookup self (subdir self))
           :: (if ok r then [] else [Sent (expected_placeholder self)])) →
  (subdir self = "" → writes evs = [])
  ∧ (∀ r σ1, send (host w) (expected_lookup self (subdir self)) = (inr r, σ1) →
             ok r = true → writes evs = [])
  ∧ (∀ r σ1, subdir self ≠ "" →
             send (host w) (expected_lookup self (subdir self)) = (inr r, σ1) →
             ok r = false → writes evs = [expected_placeholder self]).
Proof.
  intros Hroot Hsent. split; [|split].
  - intros Hempty. now rewrite (Hroot Hempty).
  - intros r σ1 Hprobe Hok. destruct (decide (subdir self = "")) as [Hempty|Hne].
    + now rewrite (Hroot Hempty).
    + rewrite (Hsent r σ1 Hne Hprobe), Hok. reflexivity.
  - intros r σ1 Hne Hprobe Hok. rewrite (Hsent r σ1 Hne Hprobe), Hok. reflexivity.
Qed.

(** C2, where the code leaves the discipline: when the directory probe
    fails, [_ensure_dir] sends the placeholder create without touching the
    semaphore.  Its two requests are all it logs, the second one is a
    write, no permit is held when it goes out, and the value of the
    semaphore is the same before, during and after.  (The other writes
    are gated, see [delete_gated] and the lemmas next to it; what the gap
    means for threads is [placeholder_writes_unbounded].) *)
Theorem ensure_dir_write_outside_gate (w : World Σ) r σ1 answer σ2 :
  subdir self ≠ "" →
  send (host w) (get_request self (subdir self)) = (inr r, σ1) →
  ok r = false →
  send σ1 (put_request self (subdir self +:+ ".gitkeep") (gitkeep_body self) None)
  = (answer, σ2) →
  log (snd (_ensure_dir self w)) = log w ++ placeholder_log self
  ∧ writes (placeholder_log self)
    = [put_request self (subdir self +:+ ".gitkeep") (gitkeep_body self) None]
  ∧ gated 0 (placeholder_log self) = false
  ∧ sema (snd (_ensure_dir self w)) = sema w.
Proof.
  intros Hne Hget Hok Hput.
  rewrite (ensure_dir_absent w r σ1 answer σ2 Hne Hget Hok Hput).
  repeat split.
Qed.

(** *** [delete] *)

(** C4: when the lookup is answered 404, [delete] returns normally; the
    lookup is the only request it sends, so the writes of the log are
    what they were, the semaphore is untouched, and the host is left as
    the lookup left it. *)
Theorem delete_absent_is_noop (w : World Σ) (filename : string) r σ1 :
  send (host w) (get_request self (subdir self +:+ filename)) = (inr r, σ1) →
  status_code r = 404 →
  delete self filename w
  = (Ret tt, mkWorld σ1 (sema w)
               (log w ++ [Sent (get_request self (subdir self +:+ filename))]))
  ∧ writes (log (snd (delete self filename w))) = writes (log w).
Proof.
  intros Hget H404.
  assert (Hrun : delete self filename w
    = (Ret tt, mkWorld σ1 (sema w)
                 (log w ++ [Sent (get_request self (subdir self +:+ filename))]))).
  { unfold delete. run. rewrite Hget, H404. reflexivity. }
  rewrite Hrun. split; [reflexivity|].
  simpl. rewrite writes_app. simpl. apply app_nil_r.
Qed.

(** *** [update] *)

(** C5, amended: when the lookup of the target is not answered with
    success, [update] raises [FileNotFoundError] for the target name right
    after the lookup, and no request follows it.  What precedes the lookup
    is the directory step: no request with the root as subdirectory, else
    the probe of the subdirectory and, exactly when that probe is not
    answered with success, the placeholder create.  So the call sends no
    write, or that one PUT for {subdir}.gitkeep; and that PUT goes to the
    address of the target only when the target is named .gitkeep. *)
Theorem update_missing_target (w w1 : World Σ) (file_path : string)
    (filename : option string) r σ2 :
  let name := target_name file_path filename in
  let lookup := expected_lookup self (subdir self +:+ name) in
  let probe := expected_lookup self (subdir self) in
  let placeholder := expected_placeholder self in
  _ensure_dir self w = (Ret tt, w1) →
  send (host w1) lookup = (inr r, σ2) →
  ok r = false →
  update self file_path filename w
  = (Raise (FileNotFoundError name), mkWorld σ2 (sema w) (log w1 ++ [Sent lookup]))
  ∧ (∃ evs, log w1 = log w ++ evs
       ∧ (subdir self = "" → evs = [])
       ∧ (∀ r0 σ1, subdir self ≠ "" → send (host w) probe = (inr r0, σ1) →
                   evs = Sent probe :: (if ok r0 then [] else [Sent placeholder]))
       ∧ (∀ r0 σ1, send (host w) probe = (inr r0, σ1) → ok r0 = true →
                   writes evs = [])
       ∧ (writes evs = [] ∨ writes evs = [placeholder])
       ∧ writes (log (snd (update self file_path filename w)))
         = writes (log w) ++ writes evs
       ∧ (name ≠ ".gitkeep" →
          Forall (fun rq => rq_url rq ≠ rq_url lookup) (writes evs))).
Proof.
  intros name lookup probe placeholder Hdir Hget Hok.
  destruct (ensure_dir_returned w w1 Hdir) as (Hsema & evs & Hlog & Hroot & Hsent & Hwrites).
  assert (Hrun : update self file_path filename w
    = (Raise (FileNotFoundError name), mkWorld σ2 (sema w) (log w1 ++ [Sent lookup]))).
  { unfold update, bind at 1. rewrite Hdir. fold name.
    change (get_request self (subdir self +:+ name)) with lookup.
    run. rewrite Hget, Hok. simpl. rewrite Hsema. reflexivity. }
  rewrite Hrun. split; [reflexivity|].
  exists evs. split; [exact Hlog|]. split; [exact Hroot|]. split; [exact Hsent|].
  split; [|split; [exact Hwrites|split]].
  - intros r0 σ1 Hprobe Hok0.
    destruct (decide (subdir self = "")) as [Hempty|Hne].
    + now rewrite (Hroot Hempty).
    + rewrite (Hsent r0 σ1 Hne Hprobe), Hok0. reflexivity.
  - simpl. rewrite Hlog, !writes_app. simpl. now rewrite app_nil_r.
  - intros Hname. destruct Hwrites as [->| ->]; constructor; [|constructor].
    unfold placeholder, lookup, expected_placeholder, expected_lookup, api_address.
    cbn [rq_url]. intros H. repeat (apply append_cancel_l in H). congruence.
Qed.

(** *** [upload] *)

(** The run of [upload] after a first create answered 422. *)
Lemma upload_conflict_run (w w1 : World Σ) (file_path : string)
    (bytes : list byte) r1 σ2 answer σ3 :
  let content := Base64.b64encode bytes in
  let filename := PyPath.name file_path in
  let create := put_request self (subdir self +:+ filename)
                  (upload_body self filename content) (Some 30) in
  let renamed := PyPath.stem file_path +:+ "-" +:+ strftime_stamp (gmtime σ2)
                   +:+ PyPath.suffix file_path in
  let retry := put_request self (subdir self +:+ renamed)
                 (upload_body self renamed content) (Some 30) in
  _ensure_dir self w = (Ret tt, w1) →
  is_file (host w1) file_path = true →
  read_bytes (host w1) file_path = inr bytes →
  0 < sema w1 →
  send (host w1) create = (inr r1, σ2) →
  status_code r1 = 422 →
  send σ2 retry = (answer, σ3) →
  upload self file_path w
  = (match answer with
     | inl e => Raise e
     | inr r2 => if ok r2 then Ret (_cdn_url self renamed)
                 else Raise (RuntimeError (text r2))
     end,
     mkWorld σ3 (sema w1) (log w1 ++ [Acquire; Sent create; Sent retry; Release])).
Proof.
  intros content filename create renamed retry Hdir Hfile Hread Hsema Hcreate H422 Hretry.
  unfold upload. erewrite bind_ret by exact Hdir. cbv beta.
  erewrite bind_ret by (unfold path_is_file; rewrite Hfile; reflexivity).
  cbn [negb].
  erewrite bind_ret by (unfold path_read_bytes; rewrite Hread; reflexivity).
  cbv beta. fold content filename create.
  set (w2 := mkWorld (host w1) (sema w1 - 1) (log w1 ++ [Acquire])).
  set (w3 := mkWorld σ2 (sema w1 - 1) ((log w1 ++ [Acquire]) ++ [Sent create])).
  set (w4 := mkWorld σ3 (sema w1 - 1)
               (((log w1 ++ [Acquire]) ++ [Sent create]) ++ [Sent retry])).
  assert (Hfirst : session create w2 = (Ret r1, w3))
    by (now rewrite (session_answer create w2 (inr r1) σ2 Hcreate)).
  assert (Hsecond : session retry w3
                    = (match answer with inl e => Raise e | inr r => Ret r end, w4))
    by (now rewrite (session_answer retry w3 answer σ3 Hretry)).
  assert (Hrestore : mkWorld (host w4) (sema w4 + 1) (log w4 ++ [Release])
                     = mkWorld σ3 (sema w1)
                         (log w1 ++ [Acquire; Sent create; Sent retry; Release])).
  { unfold w4. simpl. rewrite Z.sub_add, <- !app_assoc. reflexivity. }
  match goal with
  | |- bind (with_sema ?body) _ _ = _ =>
      assert (Hbody : body w2
        = (match answer with
           | inl e => Raise e
           | inr r2 => if ok r2 then Ret renamed else Raise (RuntimeError (text r2))
           end, w4))
  end.
  { erewrite bind_ret by exact Hfirst. cbv beta. rewrite H422, Z.eqb_refl.
    destruct answer as [e|r2].
    - apply bind_raise. erewrite bind_ret by reflexivity. cbv beta zeta.
      apply bind_raise. exact Hsecond.
    - erewrite (bind_ret _ _ w3 (renamed, r2) w4).
      + destruct (ok r2); reflexivity.
      + erewrite bind_ret by reflexivity. cbv beta zeta.
        erewrite bind_ret by exact Hsecond. reflexivity. }
  apply (with_sema_released _ w1 w4 _ Hsema) in Hbody;
    [|destruct answer as [e|r2]; [|destruct (ok r2)]; discriminate].
  rewrite Hrestore in Hbody.
  destruct answer as [e|r2]; [now apply bind_raise|].
  destruct (ok r2).
  + erewrite bind_ret by exact Hbody. reflexivity.
  + now apply bind_raise.
Qed.

(** C1: when the first create is answered 422, [upload] reads the clock
    and sends one more create and nothing after it: a PUT for
    {subdir}{stem}-{YYYYMMDD-HHMMSS}{suffix}, the stamp being the digits of
    the UTC time read, with the same content, the same 30 seconds of
    timeout, and a message naming the renamed file.  Both creates go out
    under one permit, which is given back, and they are the only writes
    [upload] adds after its directory step.  The retry goes to another
    address than the create that collided and its body has no "sha", so it
    cannot replace an existing file.  If the retry is answered with
    success the result is the CDN link of the renamed file; if not, the
    body of that answer is raised. *)
Theorem upload_conflict_renames (w w1 : World Σ) (file_path : string)
    (bytes : list byte) r1 σ2 answer σ3 :
  let content := Base64.b64encode bytes in
  let filename := PyPath.name file_path in
  let create := expected_create self filename content in
  let renamed := PyPath.stem file_path +:+ "-" +:+ yyyymmdd_hhmmss (gmtime σ2)
                   +:+ PyPath.suffix file_path in
  let retry := expected_create self renamed content in
  is_utc_time (gmtime σ2) = true →
  _ensure_dir self w = (Ret tt, w1) →
  is_file (host w1) file_path = true →
  read_bytes (host w1) file_path = inr bytes →
  0 < sema w1 →
  send (host w1) create = (inr r1, σ2) →
  status_code r1 = 422 →
  send σ2 retry = (answer, σ3) →
  upload self file_path w
  = (match answer with
     | inl e => Raise e
     | inr r2 => if ok r2 then Ret (_cdn_url self renamed)
                 else Raise (RuntimeError (text r2))
     end,
     mkWorld σ3 (sema w1) (log w1 ++ [Acquire; Sent create; Sent retry; Release]))
  ∧ writes (log (snd (upload self file_path w))) = writes (log w1) ++ [create; retry]
  ∧ rq_url retry ≠ rq_url create
  ∧ (∀ body, rq_data retry = Some body → field "sha" body = inl (KeyError "sha")).
Proof.
  cbv zeta. intros Hutc. rewrite <- (strftime_stamp_digits _ Hutc).
  intros Hdir Hfile Hread Hsema Hcreate H422 Hretry.
  pose proof (upload_conflict_run w w1 file_path bytes r1 σ2 answer σ3
                Hdir Hfile Hread Hsema Hcreate H422 Hretry) as Hrun.
  cbv zeta in Hrun. split; [exact Hrun|]. split; [|split].
  - rewrite Hrun. cbn [snd log]. rewrite writes_app. reflexivity.
  - unfold expected_create, api_address. cbn [rq_url]. intros H.
    repeat (apply append_cancel_l in H). exact (renamed_differs _ _ H).
  - intros body [= <-]. reflexivity.
Qed.

(** *** [clear_dir] *)


Lemma lift_inr {A} (a : A) (w : World Σ) : lift (inr a) w = (Ret a, w).
Proof. reflexivity. Qed.













(** *** The write of [delete] and of [update], and the create of [upload] *)

Lemma delete_write_run (filename : string) (w : World Σ) r σ1 sha answer σ2 :
  let api_path := subdir self +:+ filename in
  let removal := delete_request self api_path
                   [ ("message", "delete " +:+ filename); ("sha", sha);
                     ("branch", branch self) ] in
  send (host w) (get_request self api_path) = (inr r, σ1) →
  status_code r ≠ 404 →
  json_sha r = inr sha →
  0 < sema w →
  send σ1 removal = (answer, σ2) →
  delete self filename w
  = (match answer with
     | inl e => Raise e
     | inr resp => if ok resp then Ret tt else Raise (RuntimeError (text resp))
     end,
     mkWorld σ2 (sema w)
       (log w ++ Sent (get_request self api_path) :: gate_round removal)).
Proof.
  intros api_path removal Hget H404 Hsha Hs Hsend. unfold delete. cbv zeta.
  fold api_path.
  erewrite bind_ret by (now apply (session_answer _ w (inr r) σ1)).
  cbv beta. apply Z.eqb_neq in H404. rewrite H404, Hsha.
  erewrite bind_ret by apply lift_inr. cbv beta. fold removal.
  set (w1 := mkWorld σ1 (sema w) (log w ++ [Sent (get_request self api_path)])).
  assert (Hbody : with_sema (session removal) w1
    = (match answer with inl e => Raise e | inr resp => Ret resp end,
       mkWorld σ2 (sema w)
         (log w ++ Sent (get_request self api_path) :: gate_round removal))).
  { erewrite with_sema_released;
      [|exact Hs|apply (session_answer removal _ answer σ2); exact Hsend
       |destruct answer; discriminate].
    unfold w1. cbn [host sema log]. rewrite Z.sub_add, <- !app_assoc. reflexivity. }
  destruct answer as [e|resp]; [now apply bind_raise|].
  erewrite bind_ret by exact Hbody. cbv beta. destruct (ok resp); reflexivity.
Qed.


Lemma update_write_run (w w1 : World Σ) (file_path : string)
    (filename : option string) r σ2 sha bytes answer σ3 :
  let name := target_name file_path filename in
  let api_path := subdir self +:+ name in
  let overwrite := put_request self api_path
                     [ ("message", "update " +:+ name);
                       ("content", Base64.b64encode bytes);
                       ("sha", sha); ("branch", branch self) ] None in
  _ensure_dir self w = (Ret tt, w1) →
  send (host w1) (get_request self api_path) = (inr r, σ2) →
  ok r = true →
  json_sha r = inr sha →
  read_bytes σ2 file_path = inr bytes →
  0 < sema w1 →
  send σ2 overwrite = (answer, σ3) →
  update self file_path filename w
  = (match answer with
     | inl e => Raise e
     | inr resp => if ok resp then Ret (_cdn_url self name)
                   else Raise (RuntimeError (text resp))
     end,
     mkWorld σ3 (sema w1)
       (log w1 ++ Sent (get_request self api_path) :: gate_round overwrite)).
Proof.
  intros name api_path overwrite Hdir Hget Hok Hsha Hread Hs Hsend. unfold update.
  erewrite bind_ret by exact Hdir. cbv beta zeta. fold name. fold api_path.
  erewrite bind_ret by (now apply (session_answer _ w1 (inr r) σ2)).
  cbv beta. rewrite Hok, Hsha. cbn [negb].
  erewrite bind_ret by apply lift_inr. cbv beta.
  set (w2 := mkWorld σ2 (sema w1) (log w1 ++ [Sent (get_request self api_path)])).
  erewrite bind_ret
    by (unfold path_read_bytes; cbn [host w2]; rewrite Hread; apply lift_inr).
  cbv beta. fold overwrite.
  assert (Hbody : with_sema (session overwrite) w2
    = (match answer with inl e => Raise e | inr resp => Ret resp end,
       mkWorld σ3 (sema w1)
         (log w1 ++ Sent (get_request self api_path) :: gate_round overwrite))).
  { erewrite with_sema_released;
      [|exact Hs|apply (session_answer overwrite _ answer σ3); exact Hsend
       |destruct answer; discriminate].
    unfold w2. cbn [host sema log]. rewrite Z.sub_add, <- !app_assoc. reflexivity. }
  destruct answer as [e|resp]; [now apply bind_raise|].
  erewrite bind_ret by exact Hbody. cbv beta. destruct (ok resp); reflexivity.
Qed.

Lemma upload_create_run (w w1 : World Σ) (file_path : string)
    (bytes : list byte) answer σ2 :
  let filename := PyPath.name file_path in
  let create := put_request self (subdir self +:+ filename)
                  (upload_body self filename (Base64.b64encode bytes)) (Some 30) in
  _ensure_dir self w = (Ret tt, w1) →
  is_file (host w1) file_path = true →
  read_bytes (host w1) file_path = inr bytes →
  0 < sema w1 →
  send (host w1) create = (answer, σ2) →
  (∀ r1, answer = inr r1 → status_code r1 ≠ 422) →
  upload self file_path w
  = (match answer with
     | inl e => Raise e
     | inr r1 => if ok r1 then Ret (_cdn_url self filename)
                 else Raise (RuntimeError (text r1))
     end,
     mkWorld σ2 (sema w1) (log w1 ++ gate_round create)).
Proof.
  intros filename create Hdir Hfile Hread Hs Hsend H422. unfold upload.
  erewrite bind_ret by exact Hdir. cbv beta.
  erewrite bind_ret by (unfold path_is_file; rewrite Hfile; reflexivity).
  cbn [negb].
  erewrite bind_ret by (unfold path_read_bytes; rewrite Hread; reflexivity).
  cbv beta. fold filename create.
  set (w2 := mkWorld (host w1) (sema w1 - 1) (log w1 ++ [Acquire])).
  set (w3 := mkWorld σ2 (sema w1 - 1) ((log w1 ++ [Acquire]) ++ [Sent create])).
  assert (Hfirst : session create w2
                   = (match answer with inl e => Raise e | inr r => Ret r end, w3))
    by (apply (session_answer create w2 answer σ2); exact Hsend).
  match goal with
  | |- bind (with_sema ?body) _ _ = _ =>
      assert (Hbody : body w2
        = (match answer with
           | inl e => Raise e
           | inr r1 => if ok r1 then Ret filename else Raise (RuntimeError (text r1))
           end, w3))
  end.
  { destruct answer as [e|r1]; [now apply bind_raise|].
    erewrite bind_ret by exact Hfirst. cbv beta.
    specialize (H422 r1 eq_refl). apply Z.eqb_neq in H422. rewrite H422.
    erewrite bind_ret by reflexivity. cbv beta iota. destruct (ok r1); reflexivity. }
  apply (with_sema_released _ w1 w3 _ Hs) in Hbody;
    [|destruct answer as [e|r1]; [|destruct (ok r1)]; discriminate].
  unfold w3 in Hbody. cbn [host sema log] in Hbody.
  rewrite Z.sub_add, <- !app_assoc in Hbody. cbn [app] in Hbody.
  destruct answer as [e|r1]; [now apply bind_raise|].
  destruct (ok r1).
  - erewrite bind_ret by exact Hbody. reflexivity.
  - now apply bind_raise.
Qed.


(** *** The gate around the writes of the four public operations *)

(** X2: whatever the host answers, the only mutating request of [delete]
    goes out between an acquire and a release, and the semaphore ends at
    the value it had. *)
Lemma delete_gated (filename : string) (w : World Σ) :
  ∃ evs, log (snd (delete self filename w)) = log w ++ evs
         ∧ gated 0 evs = true
         ∧ sema (snd (delete self filename w)) = sema w.
Proof.
  unfold delete, bind, session, with_sema, lift, ret, raise. cbn.
  split_run; try close_gated.
Qed.

(** X6: once the directory step has returned, the overwrite of [update]
    goes out between an acquire and a release, and the semaphore ends at
    the value it had, whatever the host answers (a failed lookup, a
    missing local file, a refused overwrite, a transport exception). *)
Lemma update_gated (file_path : string) (filename : option string) (w w1 : World Σ) :
  _ensure_dir self w = (Ret tt, w1) →
  ∃ evs, log (snd (update self file_path filename w)) = log w1 ++ evs
         ∧ gated 0 evs = true
         ∧ sema (snd (update self file_path filename w)) = sema w1.
Proof.
  intros Hdir. unfold update. erewrite bind_ret by exact Hdir. cbv beta.
  unfold path_read_bytes, bind, session, with_sema, lift, ret, raise. cbn.
  split_run; try close_gated.
Qed.

(** X4: once the directory step has returned, the create of [upload] and
    its retry go out between one acquire and one release, and the
    semaphore ends at the value it had, whatever the host answers. *)
Lemma upload_gated (file_path : string) (w w1 : World Σ) :
  _ensure_dir self w = (Ret tt, w1) →
  ∃ evs, log (snd (upload self file_path w)) = log w1 ++ evs
         ∧ gated 0 evs = true
         ∧ sema (snd (upload self file_path w)) = sema w1.
Proof.
  intros Hdir. unfold upload. erewrite bind_ret by exact Hdir. cbv beta.
  unfold now, path_is_file, path_read_bytes, bind, session, with_sema, lift,
    ret, raise. cbn.
  split_run; try close_gated.
Qed.

Lemma clear_item_gated (keep : gset string) item (w : World Σ) :
  ∃ evs, log (snd (clear_item self keep item w)) = log w ++ evs
         ∧ gated 0 evs = true
         ∧ sema (snd (clear_item self keep item w)) = sema w.
Proof.
  unfold clear_item, bind, session, with_sema, lift, ret, raise. cbn.
  split_run; try close_gated.
Qed.

Lemma gated_app held evs1 evs2 :
  gated held evs1 = true → gated held (evs1 ++ evs2) = gated 0 evs2.
Proof.
  revert held. induction evs1 as [|[| |rq] evs1 IH]; intros held; cbn.
  - intros H. apply Nat.eqb_eq in H. now subst.
  - apply IH.
  - destruct held; [discriminate|apply IH].
  - intros H. apply andb_true_iff in H as [-> H]. cbn. now apply IH.
Qed.

Lemma clear_loop_gated (keep : gset string) items (deleted : Z) (w : World Σ) :
  ∃ evs, log (snd (clear_loop self keep items deleted w)) = log w ++ evs
         ∧ gated 0 evs = true
         ∧ sema (snd (clear_loop self keep items deleted w)) = sema w.
Proof.
  revert deleted w. induction items as [|item rest IH]; intros deleted w.
  { exists []. cbn. now rewrite app_nil_r. }
  cbn [clear_loop]. unfold bind.
  destruct (clear_item_gated keep item w) as (evs1 & Hlog1 & Hg1 & Hs1).
  destruct (clear_item self keep item w) as [[step|e|] w1]; cbn [snd] in *.
  - assert (Hrest : ∀ n, ∃ evs,
              log (snd (clear_loop self keep rest n w1)) = log w1 ++ evs
              ∧ gated 0 evs = true
              ∧ sema (snd (clear_loop self keep rest n w1)) = sema w1)
      by (intros n; apply IH).
    destruct step as [[]|];
      [destruct (Hrest (deleted + 1)) as (evs2 & Hlog2 & Hg2 & Hs2)
      |destruct (Hrest deleted) as (evs2 & Hlog2 & Hg2 & Hs2)];
      exists (evs1 ++ evs2); rewrite Hlog2, Hlog1, Hs2, Hs1, app_assoc;
      rewrite (gated_app 0 evs1 evs2 Hg1); auto.
  - exists evs1. auto.
  - exists evs1. auto.
Qed.

(** X3: whatever the host answers, every delete of [clear_dir] goes out
    between an acquire and a release, and the semaphore ends at the value
    it had. *)
Lemma clear_dir_gated (keep : option (gset string)) (dir_path : option string)
    (w : World Σ) :
  ∃ evs, log (snd (clear_dir self keep dir_path w)) = log w ++ evs
         ∧ gated 0 evs = true
         ∧ sema (snd (clear_dir self keep dir_path w)) = sema w.
Proof.
  unfold clear_dir. cbv zeta.
  set (listing := get_request self (target_dir_of self dir_path)).
  destruct (send (host w) listing) as [[e|r] σ1] eqn:Hsend.
  { erewrite bind_raise by (now apply (session_answer listing w (inl e) σ1)).
    exists [Sent listing]. auto. }
  erewrite bind_ret by (now apply (session_answer listing w (inr r) σ1)). cbv beta.
  set (w1 := mkWorld σ1 (sema w) (log w ++ [Sent listing])).
  assert (Hhere : ∃ evs, log w1 = log w ++ evs ∧ gated 0 evs = true ∧ sema w1 = sema w)
    by (exists [Sent listing]; auto).
  destruct (ok r); cbn [negb]; [|exact Hhere].
  destruct (json_body r) as [[[|? ?]|items]|]; try exact Hhere.
  destruct (clear_loop_gated (keep_of keep) items 0 w1) as (evs & Hlog & Hg & Hs).
  exists (Sent listing :: evs). rewrite Hlog, Hs. unfold w1. cbn [log sema].
  rewrite <- app_assoc. cbn. auto.
Qed.

(** *** Answers that are not a success *)


End ClientFacts.

(** ** Batches *)

Lemma filled_lookup_other (acc : gmap string string) (files urls : list string) f :
  f ∉ files → filled acc files urls !! f = acc !! f.
Proof.
  revert acc urls. induction files as [|f0 files IH]; intros acc [|u urls] Hf;
    try reflexivity.
  apply not_elem_of_cons in Hf as [Hne Hf]. unfold filled. cbn.
  fold (filled (<[f0:=u]> acc) files urls). rewrite IH by exact Hf.
  now apply lookup_insert_ne.
Qed.

(** The value under a path is the one that came with its last occurrence. *)
Lemma filled_lookup_last (acc : gmap string string) (files urls : list string) i f u :
  files !! i = Some f → urls !! i = Some u →
  (∀ j, (i < j)%nat → files !! j ≠ Some f) →
  filled acc files urls !! f = Some u.
Proof.
  revert acc urls i. induction files as [|f0 files IH]; intros acc [|u0 urls] [|i] Hf Hu Hlast;
    try discriminate.
  - injection Hf as ->. injection Hu as ->. unfold filled. cbn.
    fold (filled (<[f:=u]> acc) files urls). rewrite filled_lookup_other.
    + apply lookup_insert_eq.
    + intros Hin. apply list_elem_of_lookup in Hin as [j Hj].
      apply (Hlast (S j)); [lia|exact Hj].
  - unfold filled. cbn. fold (filled (<[f0:=u0]> acc) files urls).
    apply (IH _ _ i); [exact Hf|exact Hu|].
    intros j Hj. apply (Hlast (S j)). lia.
Qed.

Lemma filled_dom (acc : gmap string string) (files urls : list string) :
  length files = length urls →
  dom (filled acc files urls) = dom acc ∪ list_to_set files.
Proof.
  revert acc urls. induction files as [|f0 files IH]; intros acc [|u0 urls] Hlen;
    try discriminate.
  - cbn. now rewrite (right_id_L ∅ (∪)).
  - unfold filled. cbn. fold (filled (<[f0:=u0]> acc) files urls).
    rewrite IH by (cbn in Hlen; lia). rewrite dom_insert_L.
    now rewrite (comm_L (∪) {[f0]}), <- (assoc_L (∪)).
Qed.

Section BatchFacts.

Context {Σ : Type} `{!Host Σ}.
Variable self : GitHubImageHost.

Lemma uploaded_length files (w : World Σ) urls w' :
  uploaded self files w urls w' → length files = length urls.
Proof. induction 1; cbn; congruence. Qed.

Lemma upload_into_run acc files (w : World Σ) urls w' :
  uploaded self files w urls w' →
  upload_into self acc files w = (Ret (filled acc files urls), w').
Proof.
  intros Hup. revert acc. induction Hup as [w|f files w url w1 urls w2 Hone _ IH];
    intros acc; [reflexivity|].
  cbn [upload_into]. erewrite bind_ret by exact Hone. cbv beta. apply IH.
Qed.

(** C9, amended: when every upload of the batch returns, [upload_many]
    returns a mapping whose keys are the given paths and whose value under
    a path is the link returned by the last upload of that path; over
    pairwise distinct paths it has as many entries as there are paths,
    each path with the link its own upload returned. *)
Theorem upload_many_mapping files (w : World Σ) urls w' :
  uploaded self files w urls w' →
  ∃ m, upload_many self files w = (Ret m, w')
       ∧ dom m = list_to_set files
       ∧ (∀ i f url, files !! i = Some f → urls !! i = Some url →
            (∀ j, (i < j)%nat → files !! j ≠ Some f) → m !! f = Some url)
       ∧ (NoDup files →
            size m = length files
            ∧ ∀ i f url, files !! i = Some f → urls !! i = Some url →
                         m !! f = Some url).
Proof.
  intros Hup. exists (filled ∅ files urls).
  pose proof (uploaded_length _ _ _ _ Hup) as Hlen.
  split; [exact (upload_into_run ∅ files w urls w' Hup)|].
  assert (Hdom : dom (filled ∅ files urls) = list_to_set (C:=gset string) files).
  { rewrite filled_dom by exact Hlen. now rewrite dom_empty_L, (left_id_L ∅ (∪)). }
  split; [exact Hdom|]. split.
  - intros i f url. apply filled_lookup_last.
  - intros Hnd. split.
    + rewrite <- size_dom, Hdom. now apply size_list_to_set.
    + intros i f url Hf Hu. apply (filled_lookup_last _ _ _ i); [exact Hf|exact Hu|].
      intros j Hj Hfj. pose proof (NoDup_lookup _ _ _ _ Hnd Hf Hfj). lia.
Qed.

End BatchFacts.

(** ** The operations on concrete inputs *)

Lemma upload_conflict_renames_witness :
  upload demo_store "shots/cat.png" (demo_world [removed; conflict; created])
  = (Ret "https://cdn.jsdelivr.net/gh/octo/pics@main/img/cat-20260309-070500.png",
     mkWorld {| answers := []; clock := demo_time;
                local_files := [("shots/cat.png", ["M"%byte; "a"%byte; "n"%byte])] |}
       4
       [ Sent {| rq_method := GET;
                 rq_url := "https://api.github.com/repos/octo/pics/contents/img/";
                 rq_headers := demo_headers; rq_data := None; rq_timeout := None |};
         Acquire;
         Sent {| rq_method := PUT;
                 rq_url := "https://api.github.com/repos/octo/pics/contents/img/cat.png";
                 rq_headers := demo_headers;
                 rq_data := Some [ ("message", "upload cat.png"); ("content", "TWFu");
                                   ("branch", "main") ];
                 rq_timeout := Some 30 |};
         Sent {| rq_method := PUT;
                 rq_url := "https://api.github.com/repos/octo/pics/contents/img/cat-20260309-070500.png";
                 rq_headers := demo_headers;
                 rq_data := Some [ ("message", "upload cat-20260309-070500.png");
                                   ("content", "TWFu"); ("branch", "main") ];
                 rq_timeout := Some 30 |};
         Release ])
  ∧ fst (upload demo_store "shots/cat.png"
           (demo_world_at new_year_eve [removed; conflict; server_error]))
    = Raise (RuntimeError "boom")
  ∧ writes (log (snd (upload demo_store "shots/cat.png"
                        (demo_world_at new_year_eve [removed; conflict; server_error]))))
    = [ {| rq_method := PUT;
           rq_url := "https://api.github.com/repos/octo/pics/contents/img/cat.png";
           rq_headers := demo_headers;
           rq_data := Some [ ("message", "upload cat.png"); ("content", "TWFu");
                             ("branch", "main") ];
           rq_timeout := Some 30 |};
        {| rq_method := PUT;
           rq_url := "https://api.github.com/repos/octo/pics/contents/img/cat-19991231-235958.png";
           rq_headers := demo_headers;
           rq_data := Some [ ("message", "upload cat-19991231-235958.png");
                             ("content", "TWFu"); ("branch", "main") ];
           rq_timeout := Some 30 |} ].
Proof.
  edestruct (upload_conflict_renames demo_store
               (demo_world [removed; conflict; created]))
    with (file_path := "shots/cat.png")
         (σ2 := {| answers := [created]; clock := demo_time;
                   local_files := [("shots/cat.png", ["M"%byte; "a"%byte; "n"%byte])] |})
    as [Hrun _];
    [reflexivity|reflexivity|reflexivity|reflexivity|reflexivity|reflexivity
    |reflexivity|reflexivity|].
  edestruct (upload_conflict_renames demo_store
               (demo_world_at new_year_eve [removed; conflict; server_error]))
    with (file_path := "shots/cat.png")
         (σ2 := {| answers := [server_error]; clock := new_year_eve;
                   local_files := [("shots/cat.png", ["M"%byte; "a"%byte; "n"%byte])] |})
    as (Hrun2 & Hwrites2 & _);
    [reflexivity|reflexivity|reflexivity|reflexivity|reflexivity|reflexivity
    |reflexivity|reflexivity|].
  rewrite Hrun, Hwrites2, Hrun2. split; [reflexivity|]. split; reflexivity.
Defined.

Lemma ensure_dir_write_outside_gate_witness :
  writes (log (snd (_ensure_dir demo_store (demo_world [not_found; created]))))
  = [put_request demo_store "img/.gitkeep" (gitkeep_body demo_store) None]
  ∧ sema (snd (_ensure_dir demo_store (demo_world [not_found; created]))) = 4.
Proof.
  edestruct (ensure_dir_write_outside_gate demo_store
               (demo_world [not_found; created])) as (Hlog & Hwrites & _ & Hsema);
    [discriminate|reflexivity|reflexivity|reflexivity|].
  rewrite Hlog, Hsema. split; reflexivity.
Defined.

Lemma delete_absent_is_noop_witness :
  delete demo_store "gone.png" (demo_world [not_found])
  = (Ret tt, mkWorld {| answers := []; clock := demo_time;
                        local_files := [("shots/cat.png", ["M"%byte; "a"%byte; "n"%byte])] |}
               4 [Sent (get_request demo_store "img/gone.png")]).
Proof.
  edestruct (delete_absent_is_noop demo_store (demo_world [not_found]) "gone.png")
    as [Hrun _]; [reflexivity|reflexivity|].
  rewrite Hrun. reflexivity.
Defined.

(** C5, as the claim states it, fails when the subdirectory is not yet
    visible: the target is missing, [FileNotFoundError] is raised, and one
    write has gone out by then, the placeholder create. *)
Lemma update_missing_target_after_placeholder :
  update demo_store "shots/cat.png" None (demo_world [not_found; created; not_found])
  = (Raise (FileNotFoundError "cat.png"),
     mkWorld {| answers := []; clock := demo_time;
                local_files := [("shots/cat.png", ["M"%byte; "a"%byte; "n"%byte])] |}
       4
       [ Sent {| rq_method := GET;
                 rq_url := "https://api.github.com/repos/octo/pics/contents/img/";
                 rq_headers := demo_headers; rq_data := None; rq_timeout := None |};
         Sent {| rq_method := PUT;
                 rq_url := "https://api.github.com/repos/octo/pics/contents/img/.gitkeep";
                 rq_headers := demo_headers;
                 rq_data := Some [ ("message", "init dir"); ("content", "");
                                   ("branch", "main") ];
                 rq_timeout := None |};
         Sent {| rq_method := GET;
                 rq_url := "https://api.github.com/repos/octo/pics/contents/img/cat.png";
                 rq_headers := demo_headers; rq_data := None; rq_timeout := None |} ])
  ∧ writes (log (snd (update demo_store "shots/cat.png" None
                        (demo_world [not_found; created; not_found]))))
    = [ {| rq_method := PUT;
           rq_url := "https://api.github.com/repos/octo/pics/contents/img/.gitkeep";
           rq_headers := demo_headers;
           rq_data := Some [ ("message", "init dir"); ("content", "");
                             ("branch", "main") ];
           rq_timeout := None |} ].
Proof. split; vm_compute; reflexivity. Qed.

(** The exception in the amended C5: with .gitkeep as target, the
    placeholder create is a write to the address of the target. *)
Example update_placeholder_as_target :
  fst (update demo_store "shots/cat.png" (Some ".gitkeep")
         (demo_world [not_found; server_error; not_found]))
  = Raise (FileNotFoundError ".gitkeep")
  ∧ List.map (fun rq => (rq_method rq, rq_url rq))
      (writes (log (snd (update demo_store "shots/cat.png" (Some ".gitkeep")
                           (demo_world [not_found; server_error; not_found])))))
    = [ (PUT, "https://api.github.com/repos/octo/pics/contents/img/.gitkeep") ]
  ∧ rq_url (expected_lookup demo_store "img/.gitkeep")
    = "https://api.github.com/repos/octo/pics/contents/img/.gitkeep".
Proof. repeat split; vm_compute; reflexivity. Qed.

Lemma update_missing_target_witness :
  update demo_store "shots/cat.png" (Some "dog.png") (demo_world [removed; not_found])
  = (Raise (FileNotFoundError "dog.png"),
     mkWorld {| answers := []; clock := demo_time;
                local_files := [("shots/cat.png", ["M"%byte; "a"%byte; "n"%byte])] |}
       4
       [ Sent {| rq_method := GET;
                 rq_url := "https://api.github.com/repos/octo/pics/contents/img/";
                 rq_headers := demo_headers; rq_data := None; rq_timeout := None |};
         Sent {| rq_method := GET;
                 rq_url := "https://api.github.com/repos/octo/pics/contents/img/dog.png";
                 rq_headers := demo_headers; rq_data := None; rq_timeout := None |} ])
  ∧ writes (log (snd (update demo_store "shots/cat.png" (Some "dog.png")
                        (demo_world [not_found; created; not_found]))))
    = [ {| rq_method := PUT;
           rq_url := "https://api.github.com/repos/octo/pics/contents/img/.gitkeep";
           rq_headers := demo_headers;
           rq_data := Some [ ("message", "init dir"); ("content", "");
                             ("branch", "main") ];
           rq_timeout := None |} ]
  ∧ Forall (fun rq => rq_url rq
                      ≠ "https://api.github.com/repos/octo/pics/contents/img/dog.png")
      (writes (log (snd (update demo_store "shots/cat.png" (Some "dog.png")
                           (demo_world [not_found; created; not_found]))))).
Proof.
  edestruct (update_missing_target demo_store (demo_world [removed; not_found]))
    with (file_path := "shots/cat.png") (filename := Some "dog.png")
    as [Hrun _]; [reflexivity|reflexivity|reflexivity|].
  edestruct (update_missing_target demo_store
               (demo_world [not_found; created; not_found]))
    with (file_path := "shots/cat.png") (filename := Some "dog.png")
    as (_ & evs & _ & _ & Hsent & _ & _ & Hwrites & Hurl);
    [reflexivity|reflexivity|reflexivity|].
  rewrite Hrun, Hwrites. split; [reflexivity|].
  split; [|apply Hurl; discriminate].
  erewrite Hsent; cycle 1; [discriminate|reflexivity|reflexivity].
Defined.




(** A lookup of [delete] answered 500 ends in the [KeyError] of the
    missing "sha", before any write. *)
Example delete_lookup_error :
  delete demo_store "cat.png" (demo_world [server_error])
  = (Raise (KeyError "sha"),
     mkWorld {| answers := []; clock := demo_time;
                local_files := [("shots/cat.png", ["M"%byte; "a"%byte; "n"%byte])] |}
       4 [Sent (get_request demo_store "img/cat.png")]).
Proof. reflexivity. Qed.

(** C9, as the claim states it, fails for a path listed twice: both
    uploads return, the second under a new name, and the mapping has one
    entry, holding the link of the second upload. *)
Lemma upload_many_repeated_path :
  let w0 := demo_world [removed; created; removed; conflict; created] in
  let first := "https://cdn.jsdelivr.net/gh/octo/pics@main/img/cat.png" in
  let second := "https://cdn.jsdelivr.net/gh/octo/pics@main/img/cat-20260309-070500.png" in
  fst (upload demo_store "shots/cat.png" w0) = Ret first
  ∧ fst (upload demo_store "shots/cat.png" (snd (upload demo_store "shots/cat.png" w0)))
    = Ret second
  ∧ match fst (upload_many demo_store ["shots/cat.png"; "shots/cat.png"] w0) with
    | Ret m => size m = 1%nat ∧ m !! "shots/cat.png" = Some second
    | _ => False
    end.
Proof. repeat split; vm_compute; reflexivity. Qed.

Lemma upload_many_mapping_witness :
  ∃ m, fst (upload_many demo_store ["shots/cat.png"] (demo_world [removed; created]))
       = Ret m
       ∧ size m = 1%nat
       ∧ m !! "shots/cat.png"
         = Some "https://cdn.jsdelivr.net/gh/octo/pics@main/img/cat.png".
Proof.
  edestruct (upload_many_mapping demo_store ["shots/cat.png"]
               (demo_world [removed; created])) as (m & Hrun & _ & _ & Hdistinct).
  { apply (uploaded_cons demo_store "shots/cat.png" [] _
             "https://cdn.jsdelivr.net/gh/octo/pics@main/img/cat.png"
             (snd (upload demo_store "shots/cat.png" (demo_world [removed; created])))
             [] _); [vm_compute; reflexivity|apply uploaded_nil]. }
  destruct (Hdistinct (NoDup_singleton "shots/cat.png")) as [Hsize Hat].
  exists m. rewrite Hrun. split; [reflexivity|]. split; [exact Hsize|].
  exact (Hat 0%nat _ _ eq_refl eq_refl).
Defined.

Lemma upload_gated_witness :
  ∃ evs, log (snd (upload demo_store "shots/cat.png" (demo_world [removed; conflict; created])))
         = [Sent (get_request demo_store "img/")] ++ evs
         ∧ gated 0 evs = true.
Proof.
  assert (Hdir : _ensure_dir demo_store (demo_world [removed; conflict; created])
                 = (Ret tt,
                    snd (_ensure_dir demo_store (demo_world [removed; conflict; created]))))
    by reflexivity.
  destruct (upload_gated demo_store "shots/cat.png" _ _ Hdir) as (evs & Hlog & Hgated & _).
  exists evs. split; [exact Hlog|exact Hgated].
Defined.

(** ** Threads under the gate *)

Lemma sum_held_insert (ts : list thread) i t t' :
  ts !! i = Some t →
  (sum_list_with held (<[i := t']> ts) + held t
   = sum_list_with held ts + held t')%nat.
Proof.
  revert i. induction ts as [|t0 ts IH]; intros [|i] Hi; try discriminate.
  - injection Hi as ->. cbn. lia.
  - specialize (IH i Hi). change (<[S i := t']> (t0 :: ts)) with (t0 :: <[i := t']> ts).
    cbn [sum_list_with]. rewrite <- !Nat.add_assoc. now rewrite IH.
Qed.

Lemma thread_step_ok p t p' t' :
  thread_step p t p' t' → thread_ok t → 0 ≤ p →
  thread_ok t' ∧ 0 ≤ p'
  ∧ p' + Z.of_nat (held t') = p + Z.of_nat (held t).
Proof.
  unfold thread_ok. intros Hstep.
  destruct Hstep as [p h rest Hp|p h rest|p h rq rest|p h rq rest]; cbn; intros Hok Hnn.
  - repeat split; [exact Hok|lia|lia].
  - destruct h as [|h]; [discriminate|]. cbn. repeat split; [exact Hok|lia|lia].
  - repeat split; [exact Hok|lia].
  - apply andb_true_iff in Hok as [_ Hok]. repeat split; [exact Hok|lia].
Qed.

Lemma pool_step_ok n pl pl' : pool_step pl pl' → pool_ok n pl → pool_ok n pl'.
Proof.
  intros [p ts i t p' t' Hi Hstep] (Hnn & Hsum & Hall). cbn in *.
  assert (Ht : thread_ok t) by (rewrite Forall_lookup in Hall; exact (Hall i t Hi)).
  destruct (thread_step_ok p t p' t' Hstep Ht Hnn) as (Ht' & Hnn' & Hbal).
  pose proof (sum_held_insert ts i t t' Hi) as Hins.
  repeat split; cbn.
  - exact Hnn'.
  - lia.
  - apply Forall_insert; assumption.
Qed.

Lemma pool_steps_ok n pl pl' : rtc pool_step pl pl' → pool_ok n pl → pool_ok n pl'.
Proof. induction 1; eauto using pool_step_ok. Qed.

Lemma writers_hold_permits (ts : list thread) :
  Forall thread_ok ts → (in_flight_writes ts ≤ sum_list_with held ts)%nat.
Proof.
  unfold in_flight_writes. induction 1 as [|t ts Ht _ IH]; cbn; [lia|].
  destruct (writing t) eqn:Hw; cbn; [|lia].
  unfold writing, thread_ok in *. destruct (flying t) as [rq|]; [|discriminate].
  cbn in Ht. rewrite Hw in Ht. cbn in Ht. apply andb_true_iff in Ht as [Hheld _].
  destruct (held t); [discriminate|lia].
Qed.

Lemma fresh_pool_ok (n : Z) (logs : list (list event)) :
  0 ≤ n → Forall (fun evs => gated 0 evs = true) logs →
  pool_ok n {| permits := n; threads := List.map fresh_thread logs |}.
Proof.
  intros Hn Hlogs. unfold pool_ok. cbn.
  assert (Hsum : sum_list_with held (List.map fresh_thread logs) = 0%nat)
    by (clear; induction logs; cbn; auto).
  rewrite Hsum. repeat split; [exact Hn|lia|].
  induction Hlogs; cbn; constructor; auto.
Qed.

(** Threads whose logs keep the gate discipline, as the logs of [delete]
    and [clear_dir] and the logs of [upload] and [update] after their
    directory step do, never have more writes in flight than the
    semaphore was created with. *)
Lemma gated_threads_bounded (n : Z) (logs : list (list event)) (pl : pool) :
  0 ≤ n → Forall (fun evs => gated 0 evs = true) logs →
  rtc pool_step {| permits := n; threads := List.map fresh_thread logs |} pl →
  Z.of_nat (in_flight_writes (threads pl)) ≤ n.
Proof.
  intros Hn Hlogs Hrun.
  destruct (pool_steps_ok n _ _ Hrun (fresh_pool_ok n logs Hn Hlogs)) as (Hnn & Hsum & Hall).
  pose proof (writers_hold_permits _ Hall). lia.
Qed.

Lemma gated_threads_bounded_witness :
  Z.of_nat (in_flight_writes
              (List.map fresh_thread
                 [gate_round (entry_delete demo_store (listed "file" "b.png" "s3"))]))
  ≤ 1.
Proof.
  apply (gated_threads_bounded 1
           [gate_round (entry_delete demo_store (listed "file" "b.png" "s3"))]
           {| permits := 1;
              threads := List.map fresh_thread
                [gate_round (entry_delete demo_store (listed "file" "b.png" "s3"))] |});
    [lia|repeat constructor|apply rtc_refl].
Defined.

(** Five threads that each run the directory step on a store created with
    four permits: all five placeholder creates are in flight at once, and
    the semaphore still shows four free permits. *)
Example placeholder_writes_unbounded :
  ∃ pl, rtc pool_step
          {| permits := 4;
             threads := List.map fresh_thread (replicate 5 (placeholder_log demo_store)) |}
          pl
        ∧ in_flight_writes (threads pl) = 5%nat
        ∧ permits pl = 4.
Proof.
  eexists. split.
  - cbn. send_placeholder 0%nat. send_placeholder 1%nat. send_placeholder 2%nat.
    send_placeholder 3%nat. send_placeholder 4%nat. apply rtc_refl.
  - split; reflexivity.
Qed.

(** * Further facts: the paths the operations take *)

Lemma field_missing (key : string) (fields : list (string * string)) e :
  field key fields = inl e → e = KeyError key.
Proof.
  induction fields as [|[k v] fields IH]; cbn.
  - now intros [= <-].
  - destruct (String.eqb k key); [discriminate|exact IH].
Qed.

Lemma ok_not_conflict (r : response) : ok r = true → status_code r ≠ 422.
Proof. unfold ok. intros H E. rewrite E in H. discriminate. Qed.

Section PathFacts.

Context {Σ : Type} `{!Host Σ}.
Variable self : GitHubImageHost.

(** X7: a create answered with success.  From its start the call sends
    the requests of the directory step (none with the root as
    subdirectory; else the probe, followed by the placeholder create when
    the probe is not answered with success), then one gated PUT for
    {subdir}{name} with the message "upload {name}", the base64 of the
    bytes of the file, the branch, and 30 seconds of timeout, and it
    returns the CDN link of the file under its own name.  So the writes
    of the whole call are that create alone when the subdirectory is the
    root or its probe succeeds, and the placeholder create followed by it
    when the probe fails. *)
Theorem upload_creates_under_own_name (w w1 : World Σ) (file_path : string)
    (bytes : list byte) r1 σ2 :
  let filename := PyPath.name file_path in
  let create := expected_create self filename (Base64.b64encode bytes) in
  let probe := expected_lookup self (subdir self) in
  let placeholder := expected_placeholder self in
  _ensure_dir self w = (Ret tt, w1) →
  is_file (host w1) file_path = true →
  read_bytes (host w1) file_path = inr bytes →
  0 < sema w →
  send (host w1) create = (inr r1, σ2) →
  ok r1 = true →
  ∃ evs,
    upload self file_path w
    = (Ret (_cdn_url self filename),
       mkWorld σ2 (sema w) (log w ++ evs ++ [Acquire; Sent create; Release]))
    ∧ writes (log (snd (upload self file_path w)))
      = writes (log w) ++ writes evs ++ [create]
    ∧ (subdir self = "" → evs = [])
    ∧ (∀ r0 σ1, subdir self ≠ "" → send (host w) probe = (inr r0, σ1) →
                evs = Sent probe :: (if ok r0 then [] else [Sent placeholder]))
    ∧ (subdir self = "" → writes evs = [])
    ∧ (∀ r0 σ1, send (host w) probe = (inr r0, σ1) → ok r0 = true → writes evs = [])
    ∧ (∀ r0 σ1, subdir self ≠ "" → send (host w) probe = (inr r0, σ1) →
                ok r0 = false → writes evs = [placeholder]).
Proof.
  intros filename create probe placeholder Hdir Hfile Hread Hs Hsend Hok.
  destruct (ensure_dir_returned self w w1 Hdir)
    as (Hsema & evs & Hlog & Hroot & Hsent & _).
  destruct (dir_step_writes self w evs Hroot Hsent) as (Hw0 & Hw1 & Hw2).
  rewrite <- Hsema in Hs.
  assert (Hrun : upload self file_path w
    = (Ret (_cdn_url self filename),
       mkWorld σ2 (sema w) (log w ++ evs ++ [Acquire; Sent create; Release]))).
  { rewrite (upload_create_run self w w1 file_path bytes (inr r1) σ2
               Hdir Hfile Hread Hs Hsend).
    - rewrite Hok, Hsema, Hlog, <- app_assoc. reflexivity.
    - intros r [= <-]. now apply ok_not_conflict. }
  exists evs. rewrite Hrun. split; [reflexivity|]. split.
  { cbn [snd log]. rewrite !writes_app. reflexivity. }
  split; [exact Hroot|]. split; [exact Hsent|]. split; [exact Hw0|].
  split; [exact Hw1|exact Hw2].
Qed.

(** X8: a local path that is not a file: [upload] raises
    [FileNotFoundError] with the path as given, right after the directory
    step; it takes no permit and sends no request for the file. *)
Theorem upload_missing_local_file (w w1 : World Σ) (file_path : string) :
  _ensure_dir self w = (Ret tt, w1) →
  is_file (host w1) file_path = false →
  upload self file_path w = (Raise (FileNotFoundError file_path), w1).
Proof.
  intros Hdir Hfile. unfold upload. erewrite bind_ret by exact Hdir. cbv beta.
  erewrite bind_ret by (unfold path_is_file; rewrite Hfile; reflexivity).
  reflexivity.
Qed.

(** X9: a lookup that finds the file.  [delete] sends the lookup, a GET
    for {subdir}{filename}, then one write: a gated DELETE to the same
    address with the message "delete {filename}", the "sha" read from the
    object the lookup returned, and the branch; it returns when that is
    answered with success. *)
Theorem delete_sends_lookup_sha (filename : string) (w : World Σ) r σ1 fields sha
    resp σ2 :
  let lookup := expected_lookup self (subdir self +:+ filename) in
  let removal := expected_removal self (subdir self +:+ filename) filename sha in
  send (host w) lookup = (inr r, σ1) →
  status_code r ≠ 404 →
  json_body r = Some (JObject fields) →
  field "sha" fields = inr sha →
  0 < sema w →
  send σ1 removal = (inr resp, σ2) →
  ok resp = true →
  delete self filename w
  = (Ret tt,
     mkWorld σ2 (sema w) (log w ++ [Sent lookup; Acquire; Sent removal; Release]))
  ∧ writes (log (snd (delete self filename w))) = writes (log w) ++ [removal].
Proof.
  intros lookup removal Hget H404 Hjson Hfield Hs Hsend Hok.
  assert (Hsha : json_sha r = inr sha) by (unfold json_sha; now rewrite Hjson).
  assert (Hrun : delete self filename w
    = (Ret tt,
       mkWorld σ2 (sema w) (log w ++ [Sent lookup; Acquire; Sent removal; Release]))).
  { rewrite (delete_write_run self filename w r σ1 sha (inr resp) σ2
               Hget H404 Hsha Hs Hsend).
    now rewrite Hok. }
  rewrite Hrun. split; [reflexivity|].
  cbn [snd log]. rewrite writes_app. reflexivity.
Qed.

(** X10: a lookup that finds the target.  From its start the call sends
    the requests of the directory step (none with the root as
    subdirectory; else the probe, followed by the placeholder create when
    the probe is not answered with success), then the lookup, a GET for
    {subdir}{name}, then one gated PUT to the same address with the
    message "update {name}", the base64 of the local bytes, the "sha" read
    from the object the lookup returned, and the branch, without timeout;
    it returns the CDN link of the target name.  So the writes of the
    whole call are that PUT alone when the subdirectory is the root or its
    probe succeeds, and the placeholder create followed by it when the
    probe fails. *)
Theorem update_overwrites_with_lookup_sha (w w1 : World Σ) (file_path : string)
    (filename : option string) r σ2 fields sha bytes resp σ3 :
  let name := target_name file_path filename in
  let lookup := expected_lookup self (subdir self +:+ name) in
  let overwrite := expected_overwrite self name (Base64.b64encode bytes) sha in
  let probe := expected_lookup self (subdir self) in
  let placeholder := expected_placeholder self in
  _ensure_dir self w = (Ret tt, w1) →
  send (host w1) lookup = (inr r, σ2) →
  ok r = true →
  json_body r = Some (JObject fields) →
  field "sha" fields = inr sha →
  read_bytes σ2 file_path = inr bytes →
  0 < sema w →
  send σ2 overwrite = (inr resp, σ3) →
  ok resp = true →
  ∃ evs,
    update self file_path filename w
    = (Ret (_cdn_url self name),
       mkWorld σ3 (sema w)
         (log w ++ evs ++ [Sent lookup; Acquire; Sent overwrite; Release]))
    ∧ writes (log (snd (update self file_path filename w)))
      = writes (log w) ++ writes evs ++ [overwrite]
    ∧ (subdir self = "" → evs = [])
    ∧ (∀ r0 σ1, subdir self ≠ "" → send (host w) probe = (inr r0, σ1) →
                evs = Sent probe :: (if ok r0 then [] else [Sent placeholder]))
    ∧ (subdir self = "" → writes evs = [])
    ∧ (∀ r0 σ1, send (host w) probe = (inr r0, σ1) → ok r0 = true → writes evs = [])
    ∧ (∀ r0 σ1, subdir self ≠ "" → send (host w) probe = (inr r0, σ1) →
                ok r0 = false → writes evs = [placeholder]).
Proof.
  intros name lookup overwrite probe placeholder Hdir Hget Hr Hjson Hfield Hread Hs
    Hsend Hok.
  assert (Hsha : json_sha r = inr sha) by (unfold json_sha; now rewrite Hjson).
  destruct (ensure_dir_returned self w w1 Hdir)
    as (Hsema & evs & Hlog & Hroot & Hsent & _).
  destruct (dir_step_writes self w evs Hroot Hsent) as (Hw0 & Hw1 & Hw2).
  rewrite <- Hsema in Hs.
  assert (Hrun : update self file_path filename w
    = (Ret (_cdn_url self name),
       mkWorld σ3 (sema w)
         (log w ++ evs ++ [Sent lookup; Acquire; Sent overwrite; Release]))).
  { rewrite (update_write_run self w w1 file_path filename r σ2 sha bytes (inr resp) σ3
               Hdir Hget Hr Hsha Hread Hs Hsend).
    rewrite Hok, Hsema, Hlog, <- app_assoc. reflexivity. }
  exists evs. rewrite Hrun. split; [reflexivity|]. split.
  { cbn [snd log]. rewrite !writes_app. reflexivity. }
  split; [exact Hroot|]. split; [exact Hsent|]. split; [exact Hw0|].
  split; [exact Hw1|exact Hw2].
Qed.

(** X11: a lookup of [delete] that is not a 404 and from which no "sha"
    can be read (a body that does not decode, an object without the key,
    a directory listing): the error of that read is raised right after
    the lookup, before a permit is taken or a write is sent. *)
Theorem delete_lookup_without_sha (filename : string) (w : World Σ) r σ1 e :
  let lookup := get_request self (subdir self +:+ filename) in
  send (host w) lookup = (inr r, σ1) →
  status_code r ≠ 404 →
  json_sha r = inl e →
  delete self filename w = (Raise e, mkWorld σ1 (sema w) (log w ++ [Sent lookup]))
  ∧ match json_body r with
    | None => e = JSONDecodeError
    | Some (JObject _) => e = KeyError "sha"
    | Some (JArray _) => e = TypeError
    end.
Proof.
  intros lookup Hget H404 Hsha. split.
  - unfold delete. cbv zeta. fold lookup.
    erewrite bind_ret by (now apply (session_answer lookup w (inr r) σ1)).
    cbv beta. apply Z.eqb_neq in H404. rewrite H404, Hsha. reflexivity.
  - unfold json_sha in Hsha. destruct (json_body r) as [[fields|items]|].
    + now apply field_missing in Hsha.
    + now injection Hsha as <-.
    + now injection Hsha as <-.
Qed.

(** X12: the same for [update]: a lookup answered with success from which
    no "sha" can be read (the target is a directory, say) raises the error
    of that read right after the lookup, and nothing is written. *)
Theorem update_lookup_without_sha (w w1 : World Σ) (file_path : string)
    (filename : option string) r σ2 e :
  let name := target_name file_path filename in
  let lookup := get_request self (subdir self +:+ name) in
  _ensure_dir self w = (Ret tt, w1) →
  send (host w1) lookup = (inr r, σ2) →
  ok r = true →
  json_sha r = inl e →
  update self file_path filename w
  = (Raise e, mkWorld σ2 (sema w1) (log w1 ++ [Sent lookup]))
  ∧ match json_body r with
    | None => e = JSONDecodeError
    | Some (JObject _) => e = KeyError "sha"
    | Some (JArray _) => e = TypeError
    end.
Proof.
  intros name lookup Hdir Hget Hok Hsha. split.
  - unfold update. erewrite bind_ret by exact Hdir. cbv beta zeta. fold name. fold lookup.
    erewrite bind_ret by (now apply (session_answer lookup w1 (inr r) σ2)).
    cbv beta. rewrite Hok, Hsha. reflexivity.
  - unfold json_sha in Hsha. destruct (json_body r) as [[fields|items]|].
    + now apply field_missing in Hsha.
    + now injection Hsha as <-.
    + now injection Hsha as <-.
Qed.

(** X13: with no permit free (a store created with [max_concurrency]
    0, say) the writes never go out: [upload] parks before its create,
    [delete] and [update] park after their lookup, and nothing is sent
    beyond that point. *)
Theorem no_permit_parks_writes (w w1 : World Σ) (file_path : string) :
  (∀ bytes,
     _ensure_dir self w = (Ret tt, w1) → is_file (host w1) file_path = true →
     read_bytes (host w1) file_path = inr bytes → sema w1 ≤ 0 →
     upload self file_path w = (Blocked, w1))
  ∧ (∀ filename r σ1 sha,
     let lookup := get_request self (subdir self +:+ filename) in
     send (host w) lookup = (inr r, σ1) → status_code r ≠ 404 →
     json_sha r = inr sha → sema w ≤ 0 →
     delete self filename w = (Blocked, mkWorld σ1 (sema w) (log w ++ [Sent lookup])))
  ∧ (∀ filename r σ2 sha bytes,
     let lookup := get_request self (subdir self +:+ target_name file_path filename) in
     _ensure_dir self w = (Ret tt, w1) →
     send (host w1) lookup = (inr r, σ2) → ok r = true →
     json_sha r = inr sha → read_bytes σ2 file_path = inr bytes → sema w1 ≤ 0 →
     update self file_path filename w
     = (Blocked, mkWorld σ2 (sema w1) (log w1 ++ [Sent lookup]))).
Proof.
  repeat apply conj.
  - intros bytes Hdir Hfile Hread Hs. unfold upload.
    erewrite bind_ret by exact Hdir. cbv beta.
    erewrite bind_ret by (unfold path_is_file; rewrite Hfile; reflexivity).
    cbn [negb].
    erewrite bind_ret by (unfold path_read_bytes; rewrite Hread; reflexivity).
    cbv beta. apply bind_blocked. now apply with_sema_parked.
  - intros filename r σ1 sha lookup Hget H404 Hsha Hs. unfold delete. cbv zeta.
    fold lookup.
    erewrite bind_ret by (now apply (session_answer lookup w (inr r) σ1)).
    cbv beta. apply Z.eqb_neq in H404. rewrite H404, Hsha.
    erewrite bind_ret by apply lift_inr. cbv beta.
    apply bind_blocked. now apply with_sema_parked.
  - intros filename r σ2 sha bytes lookup Hdir Hget Hok Hsha Hread Hs. unfold update.
    erewrite bind_ret by exact Hdir. cbv beta zeta. fold lookup.
    erewrite bind_ret by (now apply (session_answer lookup w1 (inr r) σ2)).
    cbv beta. rewrite Hok, Hsha. cbn [negb].
    erewrite bind_ret by apply lift_inr. cbv beta.
    erewrite bind_ret
      by (unfold path_read_bytes; cbn [host]; rewrite Hread; apply lift_inr).
    cbv beta. apply bind_blocked. now apply with_sema_parked.
Qed.

(** X14: the directory step is best effort: whatever the statuses of the
    probe and of the placeholder create, [_ensure_dir] returns normally;
    it ends otherwise only by passing on an exception that the session
    raised, and it never waits for a permit. *)
Theorem ensure_dir_fails_only_by_session (w : World Σ) :
  fst (_ensure_dir self w) = Ret tt
  ∨ ∃ σ rq e σ', send σ rq = (inl e, σ') ∧ fst (_ensure_dir self w) = Raise e.
Proof.
  unfold _ensure_dir. destruct (PyStr.truthy (subdir self)); [|now left].
  cbn [negb]. unfold bind, session, ret.
  destruct (send (host w) (get_request self (subdir self))) as [[e|r] σ1] eqn:Hget.
  { right. exists (host w), (get_request self (subdir self)), e, σ1. now split. }
  destruct (ok r); [now left|].
  cbn [host].
  destruct (send σ1 (put_request self (subdir self +:+ ".gitkeep") (gitkeep_body self) None))
    as [[e|r2] σ2] eqn:Hput.
  - right. eexists _, _, e, σ2. split; [exact Hput|reflexivity].
  - now left.
Qed.

(** X15: a listing answered with success whose body is not a list of
    entries: a body that does not decode raises the decoding error, an
    object with keys raises [TypeError] at its first key, an empty object
    or an empty array gives the count 0; in each of these cases the
    listing is the only request sent and no permit is taken. *)
Theorem clear_dir_not_a_listing (keep : option (gset string)) (dir_path : option string)
    (w : World Σ) r σ1 :
  let listing := get_request self (target_dir_of self dir_path) in
  let after := mkWorld σ1 (sema w) (log w ++ [Sent listing]) in
  send (host w) listing = (inr r, σ1) →
  ok r = true →
  (json_body r = None →
     clear_dir self keep dir_path w = (Raise JSONDecodeError, after))
  ∧ (∀ key rest, json_body r = Some (JObject (key :: rest)) →
     clear_dir self keep dir_path w = (Raise TypeError, after))
  ∧ (json_body r = Some (JObject []) ∨ json_body r = Some (JArray []) →
     clear_dir self keep dir_path w = (Ret 0, after)).
Proof.
  intros listing after Hsend Hok.
  assert (Hrun : clear_dir self keep dir_path w
    = match json_body r with
      | None => raise JSONDecodeError after
      | Some (JArray items) => clear_loop self (keep_of keep) items 0 after
      | Some (JObject []) => ret 0 after
      | Some (JObject (_ :: _)) => raise TypeError after
      end).
  { unfold clear_dir. cbv zeta. fold listing.
    erewrite bind_ret by (now apply (session_answer listing w (inr r) σ1)).
    cbv beta. rewrite Hok. cbn [negb]. fold after.
    destruct (json_body r) as [[[|? ?]|items]|]; reflexivity. }
  rewrite Hrun. repeat apply conj.
  - intros ->. reflexivity.
  - intros key rest ->. reflexivity.
  - intros [->| ->]; reflexivity.
Qed.

End PathFacts.

(** * Further facts: construction *)

(** X16: what every constructed store satisfies: its credential is not
    empty and is what the Authorization header carries, its semaphore
    starts at [max_concurrency], which is not negative, and its
    subdirectory is the normalised input, empty or ending in '/'. *)
Theorem init_store_invariants
    (owner_in repo_in branch_in subdir_in : string) (token_in custom_cdn_in : option string)
    (max_concurrency : Z) (env_pat : option string) store permits :
  __init__ owner_in repo_in branch_in subdir_in token_in custom_cdn_in
    max_concurrency env_pat = inr (store, permits) →
  token store ≠ ""
  ∧ headers store
    = [ ("Authorization", "Bearer " +:+ token store);
        ("Accept", "application/vnd.github+json");
        ("X-GitHub-Api-Version", "2022-11-28") ]
  ∧ permits = max_concurrency ∧ 0 ≤ permits
  ∧ subdir store = normalize_subdir subdir_in
  ∧ (subdir store = "" ∨ PyStr.ends_with "/" (subdir store) = true)
  ∧ owner store = owner_in ∧ repo store = repo_in ∧ branch store = branch_in
  ∧ custom_cdn store = custom_cdn_in.
Proof.
  unfold __init__. destruct (resolve_token token_in env_pat) as [tok|]; [|discriminate].
  destruct (PyStr.truthy tok) eqn:Htok; [|discriminate].
  destruct (max_concurrency <? 0) eqn:Hmc; [discriminate|].
  intros [= <- <-]. cbn. apply Z.ltb_ge in Hmc.
  repeat split; try assumption.
  - intros ->. discriminate.
  - unfold normalize_subdir. destruct (PyStr.truthy subdir_in); [right|now left].
    apply ends_with_append_char.
Qed.

Lemma init_store_invariants_witness :
  ∃ store, __init__ "octo" "pics" "main" "/img/" None None 4 (Some "t0ken") = inr (store, 4)
           ∧ subdir store = "img/" ∧ token store = "t0ken".
Proof.
  eexists. split; [reflexivity|].
  destruct (init_store_invariants "octo" "pics" "main" "/img/" None None 4 (Some "t0ken")
              _ _ eq_refl) as (_ & _ & _ & _ & Hsub & _).
  split; [exact Hsub|reflexivity].
Defined.

(** X17: for a store constructed from a subdirectory that has a character
    besides '/', and no custom CDN, the link of every filename, one that
    starts with '/' included, is exactly the default pattern over the
    stripped subdirectory: the stripping of leading separators in
    [_cdn_url] never removes anything. *)
Theorem init_cdn_url_exact
    (owner_in repo_in branch_in subdir_in : string) (token_in : option string)
    (max_concurrency : Z) (env_pat : option string) store permits (filename : string) :
  __init__ owner_in repo_in branch_in subdir_in token_in None max_concurrency env_pat
  = inr (store, permits) →
  PyStr.strip "/" subdir_in ≠ "" →
  _cdn_url store filename
  = "https://cdn.jsdelivr.net/gh/" +:+ owner_in +:+ "/" +:+ repo_in +:+ "@"
      +:+ branch_in +:+ "/" +:+ PyStr.strip "/" subdir_in +:+ "/" +:+ filename
  ∧ get_url store filename = _cdn_url store filename.
Proof.
  unfold __init__. destruct (resolve_token token_in env_pat) as [tok|]; [|discriminate].
  destruct (PyStr.truthy tok); [|discriminate].
  destruct (max_concurrency <? 0); [discriminate|].
  intros [= <- _] Hne. split; [|reflexivity].
  unfold _cdn_url. cbn [custom_cdn PyStr.truthy_opt owner repo branch subdir].
  assert (Hsub : normalize_subdir subdir_in = PyStr.strip "/" subdir_in +:+ "/").
  { unfold normalize_subdir. destruct subdir_in; [exfalso; now apply Hne|reflexivity]. }
  rewrite Hsub, lstrip_id, append_assoc; [reflexivity|].
  rewrite append_assoc, starts_with_append by exact Hne.
  apply strip_no_leading_slash.
Qed.

Lemma init_cdn_url_exact_witness :
  ∃ store, __init__ "octo" "pics" "main" "/img/" (Some "t0ken") None 4 None = inr (store, 4)
           ∧ _cdn_url store "/cat.png"
             = "https://cdn.jsdelivr.net/gh/octo/pics@main/img//cat.png".
Proof.
  eexists. split; [reflexivity|].
  destruct (init_cdn_url_exact "octo" "pics" "main" "/img/" (Some "t0ken") 4 None
              _ _ "/cat.png" eq_refl ltac:(discriminate)) as [Hurl _].
  rewrite Hurl. reflexivity.
Defined.

(** X18: a non-empty explicit credential wins over the environment: the
    outcome of the construction is the same whatever the variable holds,
    and a constructed store carries the explicit credential. *)
Theorem init_explicit_token_wins
    (owner_in repo_in branch_in subdir_in tok : string) (custom_cdn_in : option string)
    (max_concurrency : Z) (env_pat env_pat' : option string) :
  tok ≠ "" →
  __init__ owner_in repo_in branch_in subdir_in (Some tok) custom_cdn_in
    max_concurrency env_pat
  = __init__ owner_in repo_in branch_in subdir_in (Some tok) custom_cdn_in
      max_concurrency env_pat'
  ∧ (0 ≤ max_concurrency →
     ∃ store, __init__ owner_in repo_in branch_in subdir_in (Some tok) custom_cdn_in
                max_concurrency env_pat = inr (store, max_concurrency)
              ∧ token store = tok)
  ∧ (max_concurrency < 0 →
     __init__ owner_in repo_in branch_in subdir_in (Some tok) custom_cdn_in
       max_concurrency env_pat = inl ValueError).
Proof.
  intros Htok. unfold __init__, resolve_token.
  destruct tok as [|c tok]; [congruence|]. cbn.
  split; [reflexivity|]. split.
  - intros Hmc. apply Z.ltb_ge in Hmc. rewrite Hmc. eexists. split; reflexivity.
  - intros Hmc. apply Z.ltb_lt in Hmc. now rewrite Hmc.
Qed.

Lemma init_explicit_token_wins_witness :
  __init__ "octo" "pics" "main" "img" (Some "mine") None 4 (Some "theirs")
  = __init__ "octo" "pics" "main" "img" (Some "mine") None 4 None.
Proof.
  exact (proj1 (init_explicit_token_wins "octo" "pics" "main" "img" "mine" None 4
                  (Some "theirs") None ltac:(discriminate))).
Defined.

(** * Further facts: batches *)

Lemma writes_lookups (self : GitHubImageHost) (filenames : list string) :
  writes (List.map (fun f => Sent (get_request self (subdir self +:+ f))) filenames) = [].
Proof. induction filenames; cbn; auto. Qed.

Section MoreBatchFacts.

Context {Σ : Type} `{!Host Σ}.
Variable self : GitHubImageHost.

(** Whatever the host answers, a link that [update] returns is the link
    of the target name. *)
Lemma update_returns_target_link (file_path : string) (filename : option string)
    (w w' : World Σ) url :
  update self file_path filename w = (Ret url, w') →
  url = _cdn_url self (target_name file_path filename).
Proof.
  unfold update. unfold bind at 1.
  destruct (_ensure_dir self w) as [[[]|e|] w1]; try discriminate.
  unfold path_read_bytes, bind, session, with_sema, lift, ret, raise. cbn.
  split_run; intros Heq; try discriminate; now injection Heq as <- _.
Qed.

Lemma updated_length items (w : World Σ) urls w' :
  updated self items w urls w' → length items = length urls.
Proof. induction 1; cbn; congruence. Qed.

Lemma updated_links items (w : World Σ) urls w' :
  updated self items w urls w' →
  urls = List.map (fun p => _cdn_url self (target_name p.1 (Some p.2))) items.
Proof.
  induction 1 as [w|src dst items w url w1 urls w2 Hone _ IH]; [reflexivity|].
  cbn. f_equal; [|exact IH]. exact (update_returns_target_link _ _ _ _ _ Hone).
Qed.

Lemma update_into_run acc items (w : World Σ) urls w' :
  updated self items w urls w' →
  update_into self acc items w = (Ret (filled acc (items.*1) urls), w').
Proof.
  intros Hup. revert acc.
  induction Hup as [w|src dst items w url w1 urls w2 Hone _ IH]; intros acc; [reflexivity|].
  cbn [update_into]. erewrite bind_ret by exact Hone. cbv beta. apply IH.
Qed.

(** X19: when every update of the batch returns, [update_many] returns a
    mapping keyed by the local paths whose value under a path is the CDN
    link of the target name paired with it (with its last pair, should a
    path come twice): the links depend on the pairs alone, not on what
    the remote answered.  Over distinct local paths, as the items of a
    dict are, there is one entry per pair. *)
Theorem update_many_mapping items (w : World Σ) urls w' :
  updated self items w urls w' →
  ∃ m, update_many self items w = (Ret m, w')
       ∧ dom m = list_to_set (items.*1)
       ∧ (∀ i src dst, items !! i = Some (src, dst) →
            (∀ j, (i < j)%nat → items.*1 !! j ≠ Some src) →
            m !! src = Some (_cdn_url self (target_name src (Some dst))))
       ∧ (NoDup (items.*1) → size m = length items).
Proof.
  intros Hup. exists (filled ∅ (items.*1) urls).
  pose proof (updated_length _ _ _ _ Hup) as Hlen.
  pose proof (updated_links _ _ _ _ Hup) as Hurls.
  split; [exact (update_into_run ∅ items w urls w' Hup)|].
  assert (Hdom : dom (filled ∅ (items.*1) urls) = list_to_set (C:=gset string) (items.*1)).
  { rewrite filled_dom by (now rewrite length_fmap).
    now rewrite dom_empty_L, (left_id_L ∅ (∪)). }
  split; [exact Hdom|]. split.
  - intros i src dst Hi Hlast. apply (filled_lookup_last _ _ _ i).
    + now rewrite list_lookup_fmap, Hi.
    + rewrite Hurls. change (List.map ?f ?l) with (f <$> l).
      now rewrite list_lookup_fmap, Hi.
    + exact Hlast.
  - intros Hnd. rewrite <- size_dom, Hdom, size_list_to_set by exact Hnd.
    apply length_fmap.
Qed.

Lemma upload_into_stops acc l1 f l2 (w w1 w2 : World Σ) urls e :
  uploaded self l1 w urls w1 → upload self f w1 = (Raise e, w2) →
  upload_into self acc (l1 ++ f :: l2) w = (Raise e, w2).
Proof.
  intros Hup Hf. revert acc.
  induction Hup as [w|f0 files w url w1 urls w3 Hone _ IH]; intros acc; cbn [app upload_into].
  - now apply bind_raise.
  - erewrite bind_ret by exact Hone. cbv beta. now apply IH.
Qed.

Lemma update_into_stops acc l1 src dst l2 (w w1 w2 : World Σ) urls e :
  updated self l1 w urls w1 → update self src (Some dst) w1 = (Raise e, w2) →
  update_into self acc (l1 ++ (src, dst) :: l2) w = (Raise e, w2).
Proof.
  intros Hup Hf. revert acc.
  induction Hup as [w|s0 d0 items w url w1 urls w3 Hone _ IH]; intros acc;
    cbn [app update_into].
  - now apply bind_raise.
  - erewrite bind_ret by exact Hone. cbv beta. now apply IH.
Qed.

Lemma delete_many_stops l1 f l2 (w w1 w2 : World Σ) e :
  deleted self l1 w w1 → delete self f w1 = (Raise e, w2) →
  delete_many self (l1 ++ f :: l2) w = (Raise e, w2).
Proof.
  intros Hdel Hf.
  induction Hdel as [w|f0 files w w1 w3 Hone _ IH]; cbn [app delete_many].
  - now apply bind_raise.
  - erewrite bind_ret by exact Hone. cbv beta. now apply IH.
Qed.

(** X20: the batch helpers stop at the first element that raises: the
    elements before it have been applied, the exception is the one of
    that element, the world is the one it left, and the elements after it
    are never touched; no partial mapping is returned. *)
Theorem batches_stop_at_first_failure (w w1 w2 : World Σ) (e : exn) :
  (∀ l1 f l2 urls,
     uploaded self l1 w urls w1 → upload self f w1 = (Raise e, w2) →
     upload_many self (l1 ++ f :: l2) w = (Raise e, w2))
  ∧ (∀ l1 f l2,
     deleted self l1 w w1 → delete self f w1 = (Raise e, w2) →
     delete_many self (l1 ++ f :: l2) w = (Raise e, w2))
  ∧ (∀ l1 src dst l2 urls,
     updated self l1 w urls w1 → update self src (Some dst) w1 = (Raise e, w2) →
     update_many self (l1 ++ (src, dst) :: l2) w = (Raise e, w2)).
Proof.
  repeat apply conj.
  - intros l1 f l2 urls. apply upload_into_stops.
  - intros l1 f l2. apply delete_many_stops.
  - intros l1 src dst l2 urls. apply update_into_stops.
Qed.

Lemma delete_absent_run (filename : string) (w : World Σ) r σ1 :
  send (host w) (get_request self (subdir self +:+ filename)) = (inr r, σ1) →
  status_code r = 404 →
  delete self filename w
  = (Ret tt, mkWorld σ1 (sema w)
               (log w ++ [Sent (get_request self (subdir self +:+ filename))])).
Proof.
  intros Hget H404. unfold delete. cbv zeta.
  erewrite bind_ret by (now apply (session_answer _ w (inr r) σ1)).
  cbv beta. now rewrite H404.
Qed.

(** X21: deleting a batch of filenames that are all absent remotely
    returns normally after one lookup per filename, in order; no write is
    sent and no permit is needed, so it goes through even when none is
    free. *)
Theorem delete_many_absent (filenames : list string) (w : World Σ) σ' :
  answered_absent self filenames (host w) σ' →
  delete_many self filenames w
  = (Ret tt,
     mkWorld σ' (sema w)
       (log w ++ List.map (fun f => Sent (get_request self (subdir self +:+ f))) filenames))
  ∧ writes (log (snd (delete_many self filenames w))) = writes (log w).
Proof.
  intros Habsent.
  assert (Hrun : delete_many self filenames w
    = (Ret tt,
       mkWorld σ' (sema w)
         (log w ++ List.map (fun f => Sent (get_request self (subdir self +:+ f)))
                     filenames))).
  { remember (host w) as σ eqn:Hσ. revert w Hσ.
    induction Habsent as [σ|f filenames σ r σ1 σ2 Hget H404 _ IH]; intros w Hσ.
    - cbn. rewrite app_nil_r. subst σ. now destruct w.
    - subst σ. cbn [delete_many List.map].
      erewrite bind_ret by (now apply (delete_absent_run f w r σ1)).
      cbv beta. rewrite (IH (mkWorld σ1 (sema w) _) eq_refl). cbn [sema log].
      now rewrite <- app_assoc. }
  rewrite Hrun. split; [reflexivity|].
  cbn [snd log]. rewrite writes_app, writes_lookups. apply app_nil_r.
Qed.

End MoreBatchFacts.

(** * Further facts on concrete inputs *)

Lemma upload_creates_under_own_name_witness :
  upload demo_store "shots/cat.png" (demo_world [removed; created])
  = (Ret "https://cdn.jsdelivr.net/gh/octo/pics@main/img/cat.png",
     mkWorld {| answers := []; clock := demo_time;
                local_files := [("shots/cat.png", ["M"%byte; "a"%byte; "n"%byte])] |}
       4
       [ Sent {| rq_method := GET;
                 rq_url := "https://api.github.com/repos/octo/pics/contents/img/";
                 rq_headers := demo_headers; rq_data := None; rq_timeout := None |};
         Acquire;
         Sent {| rq_method := PUT;
                 rq_url := "https://api.github.com/repos/octo/pics/contents/img/cat.png";
                 rq_headers := demo_headers;
                 rq_data := Some [ ("message", "upload cat.png"); ("content", "TWFu");
                                   ("branch", "main") ];
                 rq_timeout := Some 30 |};
         Release ])
  ∧ writes (log (snd (upload demo_store "shots/cat.png"
                        (demo_world [not_found; created; created]))))
    = [ {| rq_method := PUT;
           rq_url := "https://api.github.com/repos/octo/pics/contents/img/.gitkeep";
           rq_headers := demo_headers;
           rq_data := Some [ ("message", "init dir"); ("content", ""); ("branch", "main") ];
           rq_timeout := None |};
        {| rq_method := PUT;
           rq_url := "https://api.github.com/repos/octo/pics/contents/img/cat.png";
           rq_headers := demo_headers;
           rq_data := Some [ ("message", "upload cat.png"); ("content", "TWFu");
                             ("branch", "main") ];
           rq_timeout := Some 30 |} ].
Proof.
  edestruct (upload_creates_under_own_name demo_store (demo_world [removed; created]))
    with (file_path := "shots/cat.png") as (evs & Hrun & _ & _ & Hsent & _);
    [reflexivity|reflexivity|reflexivity|reflexivity|reflexivity|reflexivity|].
  edestruct (upload_creates_under_own_name demo_store
               (demo_world [not_found; created; created]))
    with (file_path := "shots/cat.png") as (evs2 & _ & Hwrites & _ & _ & _ & _ & Htwo);
    [reflexivity|reflexivity|reflexivity|reflexivity|reflexivity|reflexivity|].
  rewrite Hrun, Hwrites. split.
  - erewrite Hsent; cycle 1; [discriminate|reflexivity|reflexivity].
  - erewrite Htwo; cycle 1; [discriminate|reflexivity|reflexivity|reflexivity].
Defined.

Lemma upload_missing_local_file_witness :
  fst (upload demo_store "shots/none.png" (demo_world [removed]))
  = Raise (FileNotFoundError "shots/none.png").
Proof.
  erewrite (upload_missing_local_file demo_store (demo_world [removed]) _ "shots/none.png");
    reflexivity.
Defined.

Lemma delete_sends_lookup_sha_witness :
  delete demo_store "cat.png" (demo_world [found; removed])
  = (Ret tt,
     mkWorld {| answers := []; clock := demo_time;
                local_files := [("shots/cat.png", ["M"%byte; "a"%byte; "n"%byte])] |}
       4
       [ Sent {| rq_method := GET;
                 rq_url := "https://api.github.com/repos/octo/pics/contents/img/cat.png";
                 rq_headers := demo_headers; rq_data := None; rq_timeout := None |};
         Acquire;
         Sent {| rq_method := DELETE;
                 rq_url := "https://api.github.com/repos/octo/pics/contents/img/cat.png";
                 rq_headers := demo_headers;
                 rq_data := Some [ ("message", "delete cat.png"); ("sha", "abc");
                                   ("branch", "main") ];
                 rq_timeout := None |};
         Release ]).
Proof.
  edestruct (delete_sends_lookup_sha demo_store "cat.png" (demo_world [found; removed]))
    as (Hrun & _);
    [reflexivity|discriminate|reflexivity|reflexivity|reflexivity|reflexivity
    |reflexivity|].
  rewrite Hrun. reflexivity.
Defined.

Lemma update_overwrites_with_lookup_sha_witness :
  update demo_store "shots/cat.png" None (demo_world [removed; found; removed])
  = (Ret "https://cdn.jsdelivr.net/gh/octo/pics@main/img/cat.png",
     mkWorld {| answers := []; clock := demo_time;
                local_files := [("shots/cat.png", ["M"%byte; "a"%byte; "n"%byte])] |}
       4
       [ Sent {| rq_method := GET;
                 rq_url := "https://api.github.com/repos/octo/pics/contents/img/";
                 rq_headers := demo_headers; rq_data := None; rq_timeout := None |};
         Sent {| rq_method := GET;
                 rq_url := "https://api.github.com/repos/octo/pics/contents/img/cat.png";
                 rq_headers := demo_headers; rq_data := None; rq_timeout := None |};
         Acquire;
         Sent {| rq_method := PUT;
                 rq_url := "https://api.github.com/repos/octo/pics/contents/img/cat.png";
                 rq_headers := demo_headers;
                 rq_data := Some [ ("message", "update cat.png"); ("content", "TWFu");
                                   ("sha", "abc"); ("branch", "main") ];
                 rq_timeout := None |};
         Release ])
  ∧ writes (log (snd (update demo_store "shots/cat.png" (Some "dog.png")
                        (demo_world [not_found; created; found; removed]))))
    = [ {| rq_method := PUT;
           rq_url := "https://api.github.com/repos/octo/pics/contents/img/.gitkeep";
           rq_headers := demo_headers;
           rq_data := Some [ ("message", "init dir"); ("content", ""); ("branch", "main") ];
           rq_timeout := None |};
        {| rq_method := PUT;
           rq_url := "https://api.github.com/repos/octo/pics/contents/img/dog.png";
           rq_headers := demo_headers;
           rq_data := Some [ ("message", "update dog.png"); ("content", "TWFu");
                             ("sha", "abc"); ("branch", "main") ];
           rq_timeout := None |} ].
Proof.
  edestruct (update_overwrites_with_lookup_sha demo_store
               (demo_world [removed; found; removed]))
    with (file_path := "shots/cat.png") (filename := @None string)
    as (evs & Hrun & _ & _ & Hsent & _);
    [reflexivity|reflexivity|reflexivity|reflexivity|reflexivity|reflexivity|reflexivity
    |reflexivity|reflexivity|].
  edestruct (update_overwrites_with_lookup_sha demo_store
               (demo_world [not_found; created; found; removed]))
    with (file_path := "shots/cat.png") (filename := Some "dog.png")
    as (evs2 & _ & Hwrites & _ & _ & _ & _ & Htwo);
    [reflexivity|reflexivity|reflexivity|reflexivity|reflexivity|reflexivity|reflexivity
    |reflexivity|reflexivity|].
  rewrite Hrun, Hwrites. split.
  - erewrite Hsent; cycle 1; [discriminate|reflexivity|reflexivity].
  - erewrite Htwo; cycle 1; [discriminate|reflexivity|reflexivity|reflexivity].
Defined.

Lemma delete_lookup_without_sha_witness :
  fst (delete demo_store "cat.png" (demo_world [server_error])) = Raise (KeyError "sha").
Proof.
  edestruct (delete_lookup_without_sha demo_store "cat.png" (demo_world [server_error]))
    as [Hrun _]; [reflexivity|discriminate|reflexivity|].
  rewrite Hrun. reflexivity.
Defined.

Lemma update_lookup_without_sha_witness :
  fst (update demo_store "shots/cat.png" (Some "old")
         (demo_world [removed; listing_reply]))
  = Raise TypeError.
Proof.
  edestruct (update_lookup_without_sha demo_store (demo_world [removed; listing_reply]))
    with (file_path := "shots/cat.png") (filename := Some "old") as [Hrun _];
    [reflexivity|reflexivity|reflexivity|reflexivity|].
  rewrite Hrun. reflexivity.
Defined.

Lemma no_permit_parks_writes_witness :
  delete demo_store "cat.png" (demo_world_with 0 [found; removed])
  = (Blocked,
     mkWorld {| answers := [removed]; clock := demo_time;
                local_files := [("shots/cat.png", ["M"%byte; "a"%byte; "n"%byte])] |}
       0 [Sent (get_request demo_store "img/cat.png")]).
Proof.
  destruct (no_permit_parks_writes demo_store (demo_world_with 0 [found; removed])
              (demo_world_with 0 []) "shots/cat.png") as (_ & Hdelete & _).
  erewrite Hdelete; cycle 1;
    [reflexivity|discriminate|reflexivity|discriminate|reflexivity].
Defined.

Lemma clear_dir_not_a_listing_witness :
  fst (clear_dir demo_store None (Some "img/cat.png") (demo_world [found]))
  = Raise TypeError.
Proof.
  edestruct (clear_dir_not_a_listing demo_store None (Some "img/cat.png")
               (demo_world [found])) as (_ & Hobject & _);
    [reflexivity|reflexivity|].
  erewrite Hobject; reflexivity.
Defined.

Lemma update_gated_witness :
  ∃ evs, log (snd (update demo_store "shots/cat.png" None
                     (demo_world [removed; found; server_error])))
         = [Sent (get_request demo_store "img/")] ++ evs
         ∧ gated 0 evs = true.
Proof.
  assert (Hdir : _ensure_dir demo_store (demo_world [removed; found; server_error])
                 = (Ret tt,
                    snd (_ensure_dir demo_store (demo_world [removed; found; server_error]))))
    by reflexivity.
  destruct (update_gated demo_store "shots/cat.png" None _ _ Hdir)
    as (evs & Hlog & Hgated & _).
  exists evs. split; [exact Hlog|exact Hgated].
Defined.

Lemma update_many_mapping_witness :
  ∃ m, fst (update_many demo_store [("shots/cat.png", "dog.png")]
              (demo_world [removed; found; removed]))
       = Ret m
       ∧ m !! "shots/cat.png"
         = Some "https://cdn.jsdelivr.net/gh/octo/pics@main/img/dog.png".
Proof.
  edestruct (update_many_mapping demo_store [("shots/cat.png", "dog.png")]
               (demo_world [removed; found; removed])) as (m & Hrun & _ & Hat & _).
  { apply (updated_cons demo_store "shots/cat.png" "dog.png" [] _
             "https://cdn.jsdelivr.net/gh/octo/pics@main/img/dog.png"
             (snd (update demo_store "shots/cat.png" (Some "dog.png")
                     (demo_world [removed; found; removed])))
             [] _); [vm_compute; reflexivity|apply updated_nil]. }
  exists m. rewrite Hrun. split; [reflexivity|].
  apply (Hat 0%nat "shots/cat.png" "dog.png" eq_refl).
  intros j Hj. destruct j; [lia|discriminate].
Defined.

Lemma batches_stop_at_first_failure_witness :
  fst (delete_many demo_store ["cat.png"; "dog.png"] (demo_world [server_error]))
  = Raise (KeyError "sha").
Proof.
  destruct (batches_stop_at_first_failure demo_store
              (demo_world [server_error]) (demo_world [server_error])
              (snd (delete demo_store "cat.png" (demo_world [server_error])))
              (KeyError "sha")) as (_ & Hdelete & _).
  pose proof (Hdelete [] "cat.png" ["dog.png"] (deleted_nil _ _) eq_refl) as Hrun.
  cbn [app] in Hrun. rewrite Hrun. reflexivity.
Defined.

Lemma delete_many_absent_witness :
  delete_many demo_store ["a.png"; "b.png"] (demo_world_with 0 [not_found; not_found])
  = (Ret tt,
     mkWorld {| answers := []; clock := demo_time;
                local_files := [("shots/cat.png", ["M"%byte; "a"%byte; "n"%byte])] |}
       0 [Sent (get_request demo_store "img/a.png");
          Sent (get_request demo_store "img/b.png")]).
Proof.
  edestruct (delete_many_absent demo_store ["a.png"; "b.png"]
               (demo_world_with 0 [not_found; not_found])) as [Hrun _].
  { eapply absent_cons; [reflexivity|reflexivity|].
    eapply absent_cons; [reflexivity|reflexivity|]. apply absent_nil. }
  rewrite Hrun. reflexivity.
Defined.
